(** * TensorTrade: action schemes and the exchange contract

    A shallow embedding of
      - [tensortrade/exchanges/exchange.py]                    ([Exchange]),
      - [tensortrade/actions/discrete_actions.py]              ([DiscreteActions]),
      - [tensortrade/actions/target_stop_action_strategy.py]   ([TargetStopActionStrategy]),
    together with the properties the specification states about them.

    Numbers.  Python's [float] and [int] values are idealised as exact
    rationals ([Q]); integer-only quantities (action codes, step counters,
    precisions) are [Z].  [round(x, n)] is rounding to [n] decimal places,
    ties to even.  True division raises [ZeroDivisionError] on a zero divisor.

    Effects.  A method is a function from the receiver ([self]) to the
    receiver after the call and either the returned value or the exception
    raised.  A mutation made before an exception is raised stays visible. *)

From Stdlib Require Import ZArith QArith Qround Qpower Lqa Lia List.
From stdpp Require Import gmap strings.

Local Open Scope Z_scope.

(** ** Exceptions and the method monad *)

Inductive exn : Set :=
| TypeError
| ValueError
| IndexError
| ZeroDivisionError.

Inductive result (A : Type) : Type :=
| Ok (a : A)
| Raise (e : exn).

Arguments Ok {A} a.
Arguments Raise {A} e.

(** [M S A]: a computation over a receiver of type [S]. *)
Definition M (S A : Type) : Type := S -> S * result A.

Definition ret {S A} (a : A) : M S A := fun s => (s, Ok a).

Definition bind {S A B} (m : M S A) (k : A -> M S B) : M S B :=
  fun s =>
    match m s with
    | (s', Ok a) => k a s'
    | (s', Raise e) => (s', Raise e)
    end.

Definition lift {S A} (r : result A) : M S A := fun s => (s, r).
Definition gets {S A} (f : S -> A) : M S A := fun s => (s, Ok (f s)).
Definition modify {S} (f : S -> S) : M S unit := fun s => (f s, Ok tt).

Notation "'let*' x ':=' m 'in' k" := (bind m (fun x => k))
  (at level 10, x name, m at level 100, k at level 200).
Notation "'do*' m 'in' k" := (bind m (fun _ => k))
  (at level 10, m at level 100, k at level 200).

(** ** Numbers *)

Module Num.

(** [a / b] on numbers. *)
Definition div (a b : Q) : result Q :=
  if Qeq_bool b 0 then Raise ZeroDivisionError else Ok (a / b)%Q.

(** Nearest integer, ties to the even neighbour. *)
Definition round_half_even (x : Q) : Z :=
  let f := Qfloor x in
  match (x - inject_Z f ?= 1 # 2)%Q with
  | Lt => f
  | Gt => f + 1
  | Eq => if Z.even f then f else f + 1
  end.

Definition pow10 (n : Z) : Q := Qpower (inject_Z 10) n.

(** [round(x, ndigits)]. *)
Definition round (x : Q) (ndigits : Z) : Q :=
  Qred (inject_Z (round_half_even (x * pow10 ndigits)) / pow10 ndigits).

(** [a >= b], [a <= b], [a > b], [a < b]. *)
Definition geb (a b : Q) : bool := Qle_bool b a.
Definition leb (a b : Q) : bool := Qle_bool a b.
Definition ltb (a b : Q) : bool := negb (Qle_bool b a).
Definition gtb (a b : Q) : bool := negb (Qle_bool a b).

(** Builtin two-argument [min] and [max]: the first argument wins a tie. *)
Definition min (a b : Q) : Q := if ltb b a then b else a.
Definition max (a b : Q) : Q := if gtb b a then b else a.

(** [int(x)]: truncation toward zero. *)
Definition int (x : Q) : Z := Z.quot (Qnum x) (Zpos (Qden x)).

End Num.

(** ** Trades *)

(** Modelled from the spec: the module [tensortrade.trades], which declares
    [TradeType] and [Trade], is not among the sources.  The specification
    fixes four order kinds in the enumeration order
    [{LimitBuy, MarketBuy, LimitSell, MarketSell}], numbered from zero so that
    [TradeType(action mod 4)] is defined on every residue, and the queries
    [is_buy] / [is_sell], which partition them. *)
Inductive TradeType : Set :=
| LIMIT_BUY
| MARKET_BUY
| LIMIT_SELL
| MARKET_SELL.

Module TradeTypes.

(** The members in enumeration order. *)
Definition members : list TradeType :=
  [LIMIT_BUY; MARKET_BUY; LIMIT_SELL; MARKET_SELL].

(** [len(TradeType)]. *)
Definition len : Z := Z.of_nat (length members).

(** [TradeType(v)]: lookup of a member by value. *)
Definition call (v : Z) : result TradeType :=
  if (v <? 0)%Z then Raise ValueError
  else match nth_error members (Z.to_nat v) with
       | Some t => Ok t
       | None => Raise ValueError
       end.

Definition is_buy (t : TradeType) : bool :=
  match t with LIMIT_BUY | MARKET_BUY => true | _ => false end.

Definition is_sell (t : TradeType) : bool :=
  match t with LIMIT_SELL | MARKET_SELL => true | _ => false end.

(** What a name in the scheme's code can denote when it is compared with
    [is]: the enumeration class itself or one of its members. *)
Inductive object : Set :=
| Class
| Member (t : TradeType).

Definition TradeType_eqb (a b : TradeType) : bool :=
  match a, b with
  | LIMIT_BUY, LIMIT_BUY | MARKET_BUY, MARKET_BUY
  | LIMIT_SELL, LIMIT_SELL | MARKET_SELL, MARKET_SELL => true
  | _, _ => false
  end.

(** [a is b]: identity; members are singletons, the class is no member. *)
Definition is_ (a b : object) : bool :=
  match a, b with
  | Class, Class => true
  | Member x, Member y => TradeType_eqb x y
  | _, _ => false
  end.

End TradeTypes.

(** Modelled from the spec: [Trade(symbol, trade_type, amount, price)], the
    value a scheme returns; a plain record of its four constructor arguments. *)
Record Trade : Type := mkTrade {
  symbol : string;
  trade_type : TradeType;
  amount : Q;
  price : Q
}.

(** ** The exchange contract ([exchange.py]) *)

(** The state of a concrete exchange as the contract exposes it: the
    configured attributes and the values of the abstract properties
    ([initial_balance], [balance], [portfolio], [current_price]). *)
Record Exchange : Type := mkExchange {
  _base_instrument : string;
  _base_precision : Z;
  _instrument_precision : Z;
  _min_trade_amount : Q;
  _max_trade_amount : Q;
  _min_trade_price : Q;
  _max_trade_price : Q;
  initial_balance : Q;
  balance : Q;
  portfolio : gmap string Q;
  current_price : string -> Q
}.

Module Exchanges.

Definition base_precision (self : Exchange) : Z := _base_precision self.
Definition instrument_precision (self : Exchange) : Z := _instrument_precision self.

(** One iteration of the loop of [net_worth]. *)
Definition net_worth_step (self : Exchange) (net_worth : Q) (item : string * Q) : Q :=
  let '(symbol, amount) := item in
  if String.eqb symbol (_base_instrument self) then net_worth
  else (net_worth + current_price self symbol * amount)%Q.

Definition net_worth (self : Exchange) : Q :=
  let net_worth := balance self in
  let portfolio := portfolio self in
  if decide (portfolio = ∅) then net_worth
  else fold_left (net_worth_step self) (map_to_list portfolio) net_worth.

Definition profit_loss_percent (self : Exchange) : result Q :=
  match Num.div (net_worth self) (initial_balance self) with
  | Ok r => Ok (r * inject_Z 100)%Q
  | Raise e => Raise e
  end.

Definition instrument_balance (self : Exchange) (symbol : string) : Q :=
  let portfolio := portfolio self in
  match portfolio !! symbol with
  | Some a => a
  | None => 0%Q
  end.

Definition _bind_trade_price (self : Exchange) (price : Q) : Q :=
  Num.min (Num.round (_max_trade_price self) (_base_precision self))
          (Num.max (Num.round price (_base_precision self))
                   (Num.round (_min_trade_price self) (_base_precision self))).

Definition _bind_trade_amount (self : Exchange) (amount : Q) : Q :=
  Num.min (Num.round (_max_trade_amount self) (_instrument_precision self))
          (Num.max (Num.round amount (_instrument_precision self))
                   (Num.round (_min_trade_amount self) (_instrument_precision self))).

End Exchanges.

(** ** The stateless scheme ([discrete_actions.py]) *)

Module DiscreteActions.

Record t : Type := mk {
  n_actions : Z;
  instrument_symbol : string;
  _exchange : Exchange
}.

(** The property [n_splits]. *)
Definition n_splits : M t Q :=
  let* n_actions := gets n_actions in
  lift (Num.div (inject_Z n_actions) (inject_Z TradeTypes.len)).

Definition _get_trade_type (action : Z) : M t TradeType :=
  lift (TradeTypes.call (action mod TradeTypes.len)).

Definition _get_trade_amount (action : Z) : M t Q :=
  let* q := lift (Num.div (inject_Z action) (inject_Z TradeTypes.len)) in
  let* n1 := n_splits in
  let* r1 := lift (Num.div 1 n1) in
  let* n2 := n_splits in
  let* r2 := lift (Num.div 1 n2) in
  let amount := (inject_Z (Num.int q) * r1 + r2)%Q in
  ret amount.

Definition get_trade (action : Z) : M t Trade :=
  let* trade_type := _get_trade_type action in
  let* trade_amount := _get_trade_amount action in
  let* base_precision := gets (fun self => Exchanges.base_precision (_exchange self)) in
  let* instrument_precision :=
    gets (fun self => Exchanges.instrument_precision (_exchange self)) in
  let* amount_held :=
    gets (fun self => Exchanges.instrument_balance (_exchange self) (instrument_symbol self)) in
  let* current_price :=
    gets (fun self => current_price (_exchange self) (instrument_symbol self)) in
  let* balance := gets (fun self => balance (_exchange self)) in
  let* trade_amount :=
    if TradeTypes.is_buy trade_type then
      let* q := lift (Num.div (balance * (98 # 100) * trade_amount) current_price) in
      ret (Num.round q instrument_precision)
    else if TradeTypes.is_sell trade_type then
      ret (Num.round (amount_held * trade_amount) instrument_precision)
    else ret trade_amount in
  let* instrument_symbol := gets instrument_symbol in
  ret (mkTrade instrument_symbol trade_type trade_amount current_price).

End DiscreteActions.

(** ** The position-tracking scheme ([target_stop_action_strategy.py]) *)

(** A [range(start, stop, step)] object; [step] is never zero. *)
Record range : Set := mkRange {
  start : Z;
  stop : Z;
  step : Z
}.

(** [len(r)]. *)
Definition range_len (r : range) : Z :=
  if (0 <? step r)%Z then
    if (start r <? stop r)%Z then (stop r - start r - 1) / step r + 1 else 0
  else
    if (stop r <? start r)%Z then (start r - stop r - 1) / (- step r) + 1 else 0.

(** The values the two loop variables of the exit scan can be bound to:
    an index produced by [enumerate], or a ledger entry (a list of numbers
    [[opened_at_step, entry_price, amount, profit_target, stop_loss]]). *)
Inductive pyobj : Type :=
| PyInt (i : Z)
| PyList (l : list Q).

(** [o[i]]. *)
Definition getitem (o : pyobj) (i : nat) : result Q :=
  match o with
  | PyInt _ => Raise TypeError
  | PyList l =>
      match nth_error l i with
      | Some q => Ok q
      | None => Raise IndexError
      end
  end.

(** [del l[idx]]: the index has to be an integer; a negative one counts from
    the end. *)
Definition delitem {A} (l : list A) (idx : pyobj) : result (list A) :=
  match idx with
  | PyList _ => Raise TypeError
  | PyInt i =>
      let n := Z.of_nat (length l) in
      let j := if (i <? 0)%Z then i + n else i in
      if ((0 <=? j) && (j <? n))%Z then Ok (delete (Z.to_nat j) l)
      else Raise IndexError
  end.

(** [enumerate(l)]: the pairs (index, element). *)
Definition enumerate (l : list (list Q)) : list (pyobj * pyobj) :=
  map (fun p => (PyInt (Z.of_nat (fst p)), PyList (snd p)))
      (combine (seq 0 (length l)) l).

Module TargetStopActionStrategy.

Record t : Type := mk {
  position_size : Z;
  instrument_symbol : string;
  profit_target_range : range;
  stop_loss_range : range;
  timeout_steps : Z;
  current_step : Z;
  trading_history : list (list Q);
  _exchange : Exchange
}.

Definition set_current_step (v : Z) (self : t) : t :=
  mk (position_size self) (instrument_symbol self) (profit_target_range self)
     (stop_loss_range self) (timeout_steps self) v (trading_history self)
     (_exchange self).

Definition set_trading_history (v : list (list Q)) (self : t) : t :=
  mk (position_size self) (instrument_symbol self) (profit_target_range self)
     (stop_loss_range self) (timeout_steps self) (current_step self) v
     (_exchange self).

Definition reset : M t unit :=
  do* modify (set_current_step 0) in
  modify (set_trading_history []).

(** The body of the loop [for trade, idx in enumerate(self.trading_history)]
    with its two variables bound to [trade] and [idx]: [Some] trade when the
    body returns, [None] when the loop goes on. *)
Definition exit_body (current_price : Q) (current_step : Z) (trade idx : pyobj)
  : M t (option Trade) :=
  let* t1 := lift (getitem trade 1) in
  let* t3 := lift (getitem trade 3) in
  let profit_target_hit := Num.geb current_price (t1 * t3) in
  let* t1' := lift (getitem trade 1) in
  let* t4 := lift (getitem trade 4) in
  let stop_loss_hit := Num.leb current_price (t1' * t4) in
  let* t0 := lift (getitem trade 0) in
  let* timeout_steps := gets timeout_steps in
  let timeout_hit := Num.geb (inject_Z current_step - t0) (inject_Z timeout_steps) in
  if profit_target_hit || stop_loss_hit || timeout_hit then
    let* amount :=
      gets (fun self => default 0%Q (portfolio (_exchange self) !! instrument_symbol self)) in
    let* t2 := lift (getitem trade 2) in
    let* amount :=
      if Num.geb amount t2 then
        let* t2' := lift (getitem trade 2) in ret t2'
      else ret amount in
    let* history := gets trading_history in
    let* history' := lift (delitem history idx) in
    do* modify (set_trading_history history') in
    let* instrument_symbol := gets instrument_symbol in
    ret (Some (mkTrade instrument_symbol MARKET_SELL amount current_price))
  else ret None.

(** The loop over the enumerated ledger.  The body returns right after the
    only mutation of the ledger, so iterating over the pairs computed at
    loop entry is what the interpreter does. *)
Fixpoint exit_loop (current_price : Q) (current_step : Z)
         (items : list (pyobj * pyobj)) : M t (option Trade) :=
  match items with
  | [] => ret None
  | (trade, idx) :: rest =>
      let* r := exit_body current_price current_step trade idx in
      match r with
      | Some tr => ret (Some tr)
      | None => exit_loop current_price current_step rest
      end
  end.

Definition get_trade (action : Z) : M t Trade :=
  let* n_pt_splits := gets (fun self => range_len (profit_target_range self)) in
  let* pq := lift (Num.div (inject_Z (action * n_pt_splits)) (inject_Z n_pt_splits)) in
  let* pr := lift (Num.div 1 (inject_Z n_pt_splits)) in
  let profit_target_percent := (pq + pr)%Q in

  let* n_sl_splits := gets (fun self => range_len (stop_loss_range self)) in
  let* sq := lift (Num.div (inject_Z (action * n_sl_splits)) (inject_Z n_sl_splits)) in
  let* sr := lift (Num.div 1 (inject_Z n_sl_splits)) in
  let stop_loss_percent := (sq + sr)%Q in

  let* position_size := gets position_size in
  let* n_splits := lift (Num.div (inject_Z position_size) (inject_Z TradeTypes.len)) in
  let* trade_type := lift (TradeTypes.call (action mod TradeTypes.len)) in
  let* q := lift (Num.div (inject_Z action) (inject_Z TradeTypes.len)) in
  let* r1 := lift (Num.div 1 n_splits) in
  let* r2 := lift (Num.div 1 n_splits) in
  let trade_amount := (inject_Z (Num.int q) * r1 + r2)%Q in

  let* current_price :=
    gets (fun self => current_price (_exchange self) (instrument_symbol self)) in
  let* base_precision := gets (fun self => Exchanges.base_precision (_exchange self)) in
  let* instrument_precision :=
    gets (fun self => Exchanges.instrument_precision (_exchange self)) in

  let* amount :=
    gets (fun self => Exchanges.instrument_balance (_exchange self) (instrument_symbol self)) in
  let current_price := Num.round current_price base_precision in
  let* current_step := gets current_step in

  do* modify (set_current_step (current_step + 1)) in

  let* history := gets trading_history in
  let* exit := exit_loop current_price current_step (enumerate history) in
  match exit with
  | Some tr => ret tr
  | None =>
      let* amount :=
        if TradeTypes.is_ TradeTypes.Class (TradeTypes.Member MARKET_BUY)
           || TradeTypes.is_ TradeTypes.Class (TradeTypes.Member LIMIT_BUY)
        then
          let* balance := gets (fun self => balance (_exchange self)) in
          let* q := lift (Num.div (balance * (99 # 100) * trade_amount) current_price) in
          let amount := Num.round q instrument_precision in
          let* history := gets trading_history in
          do* modify (set_trading_history
                        (history ++ [[inject_Z current_step; current_price; amount;
                                      profit_target_percent; stop_loss_percent]])) in
          ret amount
        else ret amount in
      let* instrument_symbol := gets instrument_symbol in
      ret (mkTrade instrument_symbol trade_type amount current_price)
  end.

End TargetStopActionStrategy.

(** ** Evaluation on concrete states *)

Definition BTC : string := "BTC".
Definition USD : string := "USD".

Definition exchange0 (bal : Q) (held : gmap string Q) (px : Q) : Exchange :=
  mkExchange USD 2 2 (1 # 1000000) 1000000 (1 # 100000000) 100000000
             1000 bal held (fun _ => px).

Definition da (n : Z) (ex : Exchange) : DiscreteActions.t :=
  DiscreteActions.mk n BTC ex.

Definition r20 : range := mkRange 0 100 5.

Definition ts (ledger : list (list Q)) (now : Z) (ex : Exchange) : TargetStopActionStrategy.t :=
  TargetStopActionStrategy.mk 20 BTC r20 r20 1000 now ledger ex.

(** ** The specification's definitions

    These follow the words of the specification, not the code; the theorems
    below compare them with the methods above. *)

Module Spec.

(** [TradeType(action_code mod 4)], the enumeration order being
    [{LimitBuy, MarketBuy, LimitSell, MarketSell}]. *)
Definition side (action_code : Z) : TradeType :=
  match action_code mod 4 with
  | 0 => LIMIT_BUY
  | 1 => MARKET_BUY
  | 2 => LIMIT_SELL
  | _ => MARKET_SELL
  end.

(** [bucket * (1/n_splits) + (1/n_splits)] with [bucket = floor(action_code / 4)]
    and [n_splits = n / 4]. *)
Definition fraction (n action_code : Z) : Q :=
  (inject_Z (action_code / 4 + 1) * (inject_Z 4 / inject_Z n))%Q.

Fixpoint sum (l : list Q) : Q :=
  match l with
  | [] => 0
  | x :: l' => x + sum l'
  end%Q.

(** [balance + Σ_{symbol ≠ base} current_price(symbol) * portfolio[symbol]]:
    the sum ranges over the symbols of the portfolio other than the base
    instrument. *)
Definition net_worth (ex : Exchange) : Q :=
  (balance ex
   + sum (map (fun symbol =>
                 current_price ex symbol * default 0 (portfolio ex !! symbol))
              (elements (dom (portfolio ex) ∖ {[ _base_instrument ex ]}))))%Q.

(** The exit conditions of a ledger entry
    [[opened_at_step, entry_price, amount, profit_target_pct, stop_loss_pct]]. *)
Definition exit_condition (current_price : Q) (current_step timeout_steps : Z)
           (entry : list Q) : bool :=
  match entry with
  | [opened_at_step; entry_price; _; profit_target_pct; stop_loss_pct] =>
      Num.geb current_price (entry_price * (1 + profit_target_pct))
      || Num.leb current_price (entry_price * (1 - stop_loss_pct))
      || Num.geb (inject_Z current_step - opened_at_step) (inject_Z timeout_steps)
  | _ => false
  end.

End Spec.

(** ** Auxiliary definitions used in the statements *)

(** The rounding tolerance at [n] decimal places: half a unit in the last place. *)
Definition tolerance (n : Z) : Q := ((1 # 2) / Num.pow10 n)%Q.

(** The shape shared by [_bind_trade_price] and [_bind_trade_amount]. *)
Definition clamp (lo hi : Q) (precision : Z) (x : Q) : Q :=
  Num.min (Num.round hi precision)
          (Num.max (Num.round x precision) (Num.round lo precision)).

(** The value of one holding in the base instrument. *)
Definition holding_value (ex : Exchange) (item : string * Q) : Q :=
  (current_price ex item.1 * item.2)%Q.

Definition not_base (ex : Exchange) (item : string * Q) : Prop :=
  item.1 ≠ _base_instrument ex.

#[local] Instance not_base_dec ex item : Decision (not_base ex item).
Proof. unfold not_base. apply _. Defined.

(** A method that leaves its receiver as it found it, whatever it returns
    or raises. *)
Definition read_only {S A} (m : M S A) : Prop := forall s, fst (m s) = s.

(** The fraction as the code computes it from [n] buckets:
    [int(action / 4) * float(1 / n_splits) + (1 / n_splits)]. *)
Definition code_fraction (n action : Z) : Q :=
  (inject_Z (Num.int (inject_Z action / inject_Z 4)) * (1 / (inject_Z n / inject_Z 4))
   + 1 / (inject_Z n / inject_Z 4))%Q.

(** The amount of a buy of the stateless scheme: the reserve applied to the
    balance, the fraction of it, converted at the current price, rounded. *)
Definition buy_amount (self : DiscreteActions.t) (action : Z) : Q :=
  Num.round (balance (DiscreteActions._exchange self) * (98 # 100)
             * code_fraction (DiscreteActions.n_actions self) action
             / current_price (DiscreteActions._exchange self)
                             (DiscreteActions.instrument_symbol self))%Q
            (_instrument_precision (DiscreteActions._exchange self)).

Definition sell_amount (self : DiscreteActions.t) (action : Z) : Q :=
  Num.round (Exchanges.instrument_balance (DiscreteActions._exchange self)
                                          (DiscreteActions.instrument_symbol self)
             * code_fraction (DiscreteActions.n_actions self) action)%Q
            (_instrument_precision (DiscreteActions._exchange self)).

(** A configuration of the position-tracking scheme whose decoding steps do
    not divide by zero. *)
Definition nondegenerate (self : TargetStopActionStrategy.t) : Prop :=
  range_len (TargetStopActionStrategy.profit_target_range self) <> 0%Z
  /\ range_len (TargetStopActionStrategy.stop_loss_range self) <> 0%Z
  /\ TargetStopActionStrategy.position_size self <> 0%Z.

(** The current price as the position-tracking scheme uses it. *)
Definition rounded_price (self : TargetStopActionStrategy.t) : Q :=
  Num.round (current_price (TargetStopActionStrategy._exchange self)
                           (TargetStopActionStrategy.instrument_symbol self))
            (_base_precision (TargetStopActionStrategy._exchange self)).

(** An open position: opened at step 0 at the price 100, amount 1, with
    thresholds no price near 100 reaches. *)
Definition position0 : list Q := [0; 100; 1; 2; 1 # 2]%Q.

(** ** The observation space and successive calls *)

(** An exchange together with the attributes [observation_space] reads beside
    the price bounds: the window size, the observation columns of the
    concrete exchange and the dtype. *)
Record ObservedExchange : Type := mkObserved {
  exchange : Exchange;
  _window_size : Z;
  observation_columns : list string;
  _dtype : string
}.

(** Arrays of one and of two dimensions; the rows of the latter have one
    length. *)
Inductive ndarray : Type :=
| Array1 (l : list Q)
| Array2 (rows : list (list Q)).

Module Np.

(** [np.tile(x, reps)] for a scalar [x]: [reps] copies of it. *)
Definition tile_scalar (x : Q) (reps : nat) : list Q := repeat x reps.

(** [np.tile(a, reps)] for a one-dimensional [a]: [reps] copies of it in a row. *)
Definition tile (a : list Q) (reps : nat) : list Q := concat (repeat a reps).

Fixpoint rows_of (rows cols : nat) (a : list Q) : list (list Q) :=
  match rows with
  | O => []
  | S rows' => firstn cols a :: rows_of rows' cols (skipn cols a)
  end.

(** [a.reshape((rows, cols))]: the elements in row-major order; the sizes
    have to agree. *)
Definition reshape (a : list Q) (rows cols : nat) : result (list (list Q)) :=
  if (length a =? rows * cols)%nat then Ok (rows_of rows cols a)
  else Raise ValueError.

End Np.

(** [Box(low, high, dtype)]. *)
Record Box : Type := mkBox {
  low : ndarray;
  high : ndarray;
  dtype : string
}.

Definition observation_space (self : ObservedExchange) : result Box :=
  let n_features := length (observation_columns self) in
  let low := Np.tile_scalar (_min_trade_price (exchange self)) n_features in
  let high := Np.tile_scalar (_max_trade_price (exchange self)) n_features in
  if (1 <? _window_size self)%Z then
    let w := Z.to_nat (_window_size self) in
    match Np.reshape (Np.tile low w) w n_features with
    | Raise e => Raise e
    | Ok low =>
        match Np.reshape (Np.tile high w) w n_features with
        | Raise e => Raise e
        | Ok high => Ok (mkBox (Array2 low) (Array2 high) (_dtype self))
        end
    end
  else Ok (mkBox (Array1 low) (Array1 high) (_dtype self)).

(** The exchange with another portfolio, everything else as it is. *)
Definition with_portfolio (p : gmap string Q) (ex : Exchange) : Exchange :=
  mkExchange (_base_instrument ex) (_base_precision ex) (_instrument_precision ex)
             (_min_trade_amount ex) (_max_trade_amount ex)
             (_min_trade_price ex) (_max_trade_price ex)
             (initial_balance ex) (balance ex) p (current_price ex).

(** One call of the position-tracking [get_trade] per action code, each on
    the scheme as the call before left it; the outcomes in order. *)
Fixpoint successive_calls (actions : list Z) (self : TargetStopActionStrategy.t)
  : TargetStopActionStrategy.t * list (result Trade) :=
  match actions with
  | [] => (self, [])
  | action :: rest =>
      let (self', outcome) := TargetStopActionStrategy.get_trade action self in
      let (self'', outcomes) := successive_calls rest self' in
      (self'', outcome :: outcomes)
  end.

(** The outcome of a call of the position-tracking [get_trade] in terms of
    the ledger: a Trade for the decoded side and the balance held when the
    ledger is empty, [TypeError] when it is not. *)
Definition outcome_on (self : TargetStopActionStrategy.t) (action : Z) : result Trade :=
  match TargetStopActionStrategy.trading_history self with
  | [] => Ok (mkTrade (TargetStopActionStrategy.instrument_symbol self) (Spec.side action)
                      (Exchanges.instrument_balance
                         (TargetStopActionStrategy._exchange self)
                         (TargetStopActionStrategy.instrument_symbol self))
                      (rounded_price self))
  | _ :: _ => Raise TypeError
  end.

(** ** The stateless scheme over a numbering of the members

    [TradeType] is declared in [tensortrade.trades], which is not among the
    sources, and with it the value each member carries.  Here the lookup
    [TradeType(v)] is a parameter, [call]; the two methods that use it are
    those of [DiscreteActions] with [call] in place of [TradeTypes.call]. *)
Module DiscreteActionsOver.
Section Numbering.
Variable call : Z -> result TradeType.

Definition _get_trade_type (action : Z) : M DiscreteActions.t TradeType :=
  lift (call (action mod TradeTypes.len)).

Definition get_trade (action : Z) : M DiscreteActions.t Trade :=
  let* trade_type := _get_trade_type action in
  let* trade_amount := DiscreteActions._get_trade_amount action in
  let* base_precision :=
    gets (fun self => Exchanges.base_precision (DiscreteActions._exchange self)) in
  let* instrument_precision :=
    gets (fun self => Exchanges.instrument_precision (DiscreteActions._exchange self)) in
  let* amount_held :=
    gets (fun self => Exchanges.instrument_balance (DiscreteActions._exchange self)
                                                   (DiscreteActions.instrument_symbol self)) in
  let* current_price :=
    gets (fun self => current_price (DiscreteActions._exchange self)
                                    (DiscreteActions.instrument_symbol self)) in
  let* balance := gets (fun self => balance (DiscreteActions._exchange self)) in
  let* trade_amount :=
    if TradeTypes.is_buy trade_type then
      let* q := lift (Num.div (balance * (98 # 100) * trade_amount) current_price) in
      ret (Num.round q instrument_precision)
    else if TradeTypes.is_sell trade_type then
      ret (Num.round (amount_held * trade_amount) instrument_precision)
    else ret trade_amount in
  let* instrument_symbol := gets DiscreteActions.instrument_symbol in
  ret (mkTrade instrument_symbol trade_type trade_amount current_price).

End Numbering.
End DiscreteActionsOver.


(** * Lemmas *)

(** *** Facts about rounding *)

Section RoundFacts.
Local Open Scope Q_scope.
Import Num.

Lemma ltb_spec a b : ltb a b = true <-> a < b.
Proof.
  unfold ltb. rewrite negb_true_iff, <- not_true_iff_false, Qle_bool_iff.
  split; [apply Qnot_le_lt | intros H H'; lra].
Qed.

Lemma gtb_spec a b : gtb a b = true <-> b < a.
Proof.
  unfold gtb. rewrite negb_true_iff, <- not_true_iff_false, Qle_bool_iff.
  split; [apply Qnot_le_lt | intros H H'; lra].
Qed.

Lemma min_cases a b : (b < a /\ min a b = b) \/ (a <= b /\ min a b = a).
Proof.
  unfold min. destruct (ltb b a) eqn:E.
  - left. split; [now apply ltb_spec | reflexivity].
  - right. split; [| reflexivity].
    apply Qnot_lt_le. intros H. apply ltb_spec in H. congruence.
Qed.

Lemma max_cases a b : (a < b /\ max a b = b) \/ (b <= a /\ max a b = a).
Proof.
  unfold max. destruct (gtb b a) eqn:E.
  - left. split; [now apply gtb_spec | reflexivity].
  - right. split; [| reflexivity].
    apply Qnot_lt_le. intros H. apply gtb_spec in H. congruence.
Qed.

Lemma round_half_even_comp x y : x == y -> round_half_even x = round_half_even y.
Proof.
  intros E. unfold round_half_even.
  rewrite (Qfloor_comp _ _ E).
  assert (C : (x - inject_Z (Qfloor y) ?= 1 # 2) = (y - inject_Z (Qfloor y) ?= 1 # 2))
    by (now rewrite E).
  now rewrite C.
Qed.

Lemma floor_bounds x : inject_Z (Qfloor x) <= x /\ x < inject_Z (Qfloor x) + 1.
Proof.
  split; [apply Qfloor_le |].
  generalize (Qlt_floor x). rewrite inject_Z_plus. unfold inject_Z at 2. lra.
Qed.

Lemma inject_Z_succ k : inject_Z (k + 1) == inject_Z k + 1.
Proof. rewrite inject_Z_plus. reflexivity. Qed.

Lemma round_half_even_error x :
  - (1 # 2) <= inject_Z (round_half_even x) - x <= 1 # 2.
Proof.
  unfold round_half_even. destruct (floor_bounds x) as [L U].
  destruct (Qcompare_spec (x - inject_Z (Qfloor x)) (1 # 2)) as [C | C | C].
  - destruct (Z.even (Qfloor x)); rewrite ?inject_Z_succ; lra.
  - lra.
  - rewrite inject_Z_succ. lra.
Qed.

Lemma round_half_even_inject_Z k : round_half_even (inject_Z k) = k.
Proof.
  unfold round_half_even. rewrite Qfloor_Z.
  destruct (Qcompare_spec (inject_Z k - inject_Z k) (1 # 2)) as [C | C | C];
    [lra | reflexivity | lra].
Qed.

Lemma round_half_even_range x :
  (Qfloor x <= round_half_even x <= Qfloor x + 1)%Z.
Proof.
  unfold round_half_even.
  destruct (x - inject_Z (Qfloor x) ?= 1 # 2); try destruct (Z.even _); lia.
Qed.

Lemma round_half_even_mono x y : x <= y -> (round_half_even x <= round_half_even y)%Z.
Proof.
  intros Hxy.
  pose proof (Qfloor_resp_le _ _ Hxy) as Hf.
  destruct (Z.eq_dec (Qfloor x) (Qfloor y)) as [E | NE].
  - unfold round_half_even. rewrite E.
    destruct (Qcompare_spec (x - inject_Z (Qfloor y)) (1 # 2)) as [Cx | Cx | Cx];
      destruct (Qcompare_spec (y - inject_Z (Qfloor y)) (1 # 2)) as [Cy | Cy | Cy];
      try (destruct (Z.even (Qfloor y))); try lia; lra.
  - pose proof (round_half_even_range x). pose proof (round_half_even_range y). lia.
Qed.

Lemma pow10_pos n : 0 < pow10 n.
Proof.
  unfold pow10. apply Qpower_0_lt. reflexivity.
Qed.

Lemma round_eq x n :
  round x n == inject_Z (round_half_even (x * pow10 n)) / pow10 n.
Proof. unfold round. apply Qred_correct. Qed.


Lemma round_idem x n : round (round x n) n = round x n.
Proof.
  unfold round at 1 3. apply Qred_complete.
  assert (P := pow10_pos n).
  rewrite (round_half_even_comp (round x n * pow10 n)
             (inject_Z (round_half_even (x * pow10 n)))).
  - now rewrite round_half_even_inject_Z.
  - rewrite round_eq. field. lra.
Qed.

Lemma round_mono x y n : x <= y -> round x n <= round y n.
Proof.
  intros H. rewrite !round_eq.
  assert (P := pow10_pos n).
  assert (Hm : x * pow10 n <= y * pow10 n) by nra.
  apply round_half_even_mono in Hm.
  rewrite Zle_Qle in Hm.
  unfold Qdiv. apply Qmult_le_compat_r; [exact Hm |].
  apply Qlt_le_weak, Qinv_lt_0_compat, P.
Qed.


Lemma round_error x n :
  - tolerance n <= round x n - x <= tolerance n.
Proof.
  unfold tolerance. rewrite round_eq.
  assert (P := pow10_pos n).
  pose proof (round_half_even_error (x * pow10 n)) as [L U].
  set (k := inject_Z (round_half_even (x * pow10 n))) in *.
  assert (Hi : 0 < / pow10 n) by now apply Qinv_lt_0_compat.
  assert (E1 : k / pow10 n - x == (k - x * pow10 n) * / pow10 n) by (field; lra).
  assert (E2 : (1 # 2) / pow10 n == (1 # 2) * / pow10 n) by reflexivity.
  rewrite E1, E2. split; nra.
Qed.

End RoundFacts.

(** ** Properties of the exchange contract *)

Section ExchangeFacts.
Local Open Scope Q_scope.

Lemma div_ok a b : ~ b == 0 -> Num.div a b = Ok (a / b).
Proof.
  intros H. unfold Num.div.
  destruct (Qeq_bool b 0) eqn:E; [| reflexivity].
  apply Qeq_bool_iff in E. contradiction.
Qed.

Lemma div_zero a b : b == 0 -> Num.div a b = Raise ZeroDivisionError.
Proof.
  intros H. unfold Num.div.
  now rewrite (proj2 (Qeq_bool_iff b 0) H).
Qed.


Lemma clamp_upper lo hi p x : clamp lo hi p x <= Num.round hi p.
Proof.
  unfold clamp.
  destruct (min_cases (Num.round hi p) (Num.max (Num.round x p) (Num.round lo p)))
    as [[H ->] | [H ->]]; lra.
Qed.

Lemma clamp_lower lo hi p x : lo <= hi -> Num.round lo p <= clamp lo hi p x.
Proof.
  intros Hlh. apply (round_mono _ _ p) in Hlh. unfold clamp.
  destruct (max_cases (Num.round x p) (Num.round lo p)) as [[Hm Em] | [Hm Em]];
    rewrite Em;
    match goal with
    | |- _ <= Num.min ?a ?b => destruct (min_cases a b) as [[H ->] | [H ->]]
    end; lra.
Qed.

Lemma clamp_rounded lo hi p x : Num.round (clamp lo hi p x) p = clamp lo hi p x.
Proof.
  unfold clamp.
  destruct (max_cases (Num.round x p) (Num.round lo p)) as [[Hm Em] | [Hm Em]];
    rewrite Em;
    match goal with
    | |- context [Num.min ?a ?b] => destruct (min_cases a b) as [[H ->] | [H ->]]
    end; apply round_idem.
Qed.

Lemma min_eq_l a b : a <= b -> Num.min a b = a.
Proof. intros H. destruct (min_cases a b) as [[H' E] | [H' E]]; [lra | exact E]. Qed.

Lemma min_eq_r a b : b < a -> Num.min a b = b.
Proof. intros H. destruct (min_cases a b) as [[H' E] | [H' E]]; [exact E | lra]. Qed.

Lemma max_eq_l a b : b <= a -> Num.max a b = a.
Proof. intros H. destruct (max_cases a b) as [[H' E] | [H' E]]; [lra | exact E]. Qed.

Lemma max_eq_r a b : a < b -> Num.max a b = b.
Proof. intros H. destruct (max_cases a b) as [[H' E] | [H' E]]; [exact E | lra]. Qed.

Lemma max_lower a b : b <= Num.max a b.
Proof. destruct (max_cases a b) as [[H ->] | [H ->]]; lra. Qed.

Lemma clamp_idem lo hi p x : clamp lo hi p (clamp lo hi p x) = clamp lo hi p x.
Proof.
  unfold clamp at 1. rewrite clamp_rounded. unfold clamp.
  set (H := Num.round hi p). set (L := Num.round lo p).
  set (m := Num.max (Num.round x p) L).
  assert (Lm : L <= m) by apply max_lower.
  destruct (min_cases H m) as [[Hc Ec] | [Hc Ec]]; rewrite Ec.
  - (* the clamped value is [m], strictly below the upper bound *)
    rewrite (max_eq_l m L) by exact Lm. exact Ec.
  - (* the clamped value is the upper bound *)
    destruct (Qlt_le_dec H L) as [Hlt | Hge].
    + rewrite (max_eq_r H L) by exact Hlt. apply min_eq_l. lra.
    + rewrite (max_eq_l H L) by exact Hge. apply min_eq_l. lra.
Qed.

Lemma bind_trade_price_clamp self x :
  Exchanges._bind_trade_price self x
  = clamp (_min_trade_price self) (_max_trade_price self) (_base_precision self) x.
Proof. reflexivity. Qed.

Lemma bind_trade_amount_clamp self x :
  Exchanges._bind_trade_amount self x
  = clamp (_min_trade_amount self) (_max_trade_amount self) (_instrument_precision self) x.
Proof. reflexivity. Qed.

End ExchangeFacts.

Section NetWorthFacts.
Local Open Scope Q_scope.

Variable ex : Exchange.

Lemma net_worth_loop (items : list (string * Q)) (acc : Q) :
  fold_left (Exchanges.net_worth_step ex) items acc
  == acc + Spec.sum (map (holding_value ex) (filter (not_base ex) items)).
Proof.
  revert acc. induction items as [| [s a] items IH]; intros acc.
  - simpl. lra.
  - simpl fold_left. rewrite IH. unfold Exchanges.net_worth_step.
    destruct (String.eqb_spec s (_base_instrument ex)) as [E | NE].
    + rewrite filter_cons_False; [lra |]. unfold not_base. simpl. tauto.
    + rewrite filter_cons_True by exact NE. simpl. unfold holding_value at 2.
      simpl. lra.
Qed.

Lemma sum_Permutation (l k : list Q) : l ≡ₚ k -> Spec.sum l == Spec.sum k.
Proof.
  induction 1 as [| x l k _ IH | x y l | l k j _ IH1 _ IH2]; simpl.
  - reflexivity.
  - rewrite IH. reflexivity.
  - lra.
  - rewrite IH1. exact IH2.
Qed.

Lemma held_symbols_Permutation (m : gmap string Q) :
  map fst (filter (not_base ex) (map_to_list m))
  ≡ₚ elements (dom m ∖ {[ _base_instrument ex ]}).
Proof.
  apply NoDup_Permutation.
  - apply (NoDup_fmap_fst (filter (not_base ex) (map_to_list m))).
    + intros s a1 a2 H1 H2.
      apply list_elem_of_filter in H1 as [_ H1]. apply list_elem_of_filter in H2 as [_ H2].
      apply elem_of_map_to_list in H1. apply elem_of_map_to_list in H2. congruence.
    + apply NoDup_filter, NoDup_map_to_list.
  - apply NoDup_elements.
  - intros s. rewrite elem_of_elements, elem_of_difference, elem_of_dom.
    rewrite not_elem_of_singleton.
    change (map fst (filter (not_base ex) (map_to_list m)))
      with (fst <$> filter (not_base ex) (map_to_list m)).
    rewrite list_elem_of_fmap. split.
    + intros [[s' a] [-> H]]. apply list_elem_of_filter in H as [Hb H].
      apply elem_of_map_to_list in H. split; [eauto | exact Hb].
    + intros [[a Ha] Hb]. exists (s, a). split; [reflexivity |].
      apply list_elem_of_filter. split; [exact Hb |].
      now apply elem_of_map_to_list.
Qed.

Lemma held_values (m : gmap string Q) (items : list (string * Q)) :
  (forall item, item ∈ items -> m !! item.1 = Some item.2) ->
  map (fun symbol => current_price ex symbol * default 0 (m !! symbol)) (map fst items)
  = map (holding_value ex) items.
Proof.
  induction items as [| item items IH]; intros H; [reflexivity |].
  simpl. rewrite IH.
  - rewrite (H item) by apply list_elem_of_here. reflexivity.
  - intros i Hi. apply H. now apply list_elem_of_further.
Qed.

Lemma net_worth_refines : Exchanges.net_worth ex == Spec.net_worth ex.
Proof.
  unfold Exchanges.net_worth, Spec.net_worth.
  assert (G : fold_left (Exchanges.net_worth_step ex) (map_to_list (portfolio ex)) (balance ex)
              == balance ex
                 + Spec.sum (map (fun symbol =>
                               current_price ex symbol * default 0 (portfolio ex !! symbol))
                              (elements (dom (portfolio ex) ∖ {[ _base_instrument ex ]})))).
  { rewrite net_worth_loop.
    rewrite <- (held_values (portfolio ex)).
    - rewrite (sum_Permutation _ _
                 (Permutation_map _ (held_symbols_Permutation (portfolio ex)))).
      reflexivity.
    - intros [s a] H. apply list_elem_of_filter in H as [_ H].
      now apply elem_of_map_to_list in H. }
  destruct (decide (portfolio ex = ∅)) as [E | NE]; [| exact G].
  rewrite <- G, E, map_to_list_empty. reflexivity.
Qed.

Lemma profit_loss_percent_ok :
  ~ initial_balance ex == 0 ->
  Exchanges.profit_loss_percent ex
  = Ok (Exchanges.net_worth ex / initial_balance ex * inject_Z 100).
Proof.
  intros H. unfold Exchanges.profit_loss_percent. now rewrite div_ok.
Qed.

End NetWorthFacts.

(** ** Reasoning about methods *)

Section MethodFacts.
Context {S : Type}.

Lemma bind_ok {A B} (m : M S A) (k : A -> M S B) s s' a :
  m s = (s', Ok a) -> bind m k s = k a s'.
Proof. intros H. unfold bind. now rewrite H. Qed.

Lemma bind_raise {A B} (m : M S A) (k : A -> M S B) s s' e :
  m s = (s', Raise e) -> bind m k s = (s', Raise e).
Proof. intros H. unfold bind. now rewrite H. Qed.

Lemma read_only_ret {A} (a : A) : read_only (ret a : M S A).
Proof. intros s. reflexivity. Qed.

Lemma read_only_lift {A} (r : result A) : read_only (lift r : M S A).
Proof. intros s. reflexivity. Qed.

Lemma read_only_gets {A} (f : S -> A) : read_only (gets f).
Proof. intros s. reflexivity. Qed.

Lemma read_only_bind {A B} (m : M S A) (k : A -> M S B) :
  read_only m -> (forall a, read_only (k a)) -> read_only (bind m k).
Proof.
  intros Hm Hk s. unfold bind. specialize (Hm s).
  destruct (m s) as [s' [a | e]]; simpl in Hm; subst s'.
  - apply Hk.
  - reflexivity.
Qed.

Lemma read_only_if {A} (b : bool) (m1 m2 : M S A) :
  read_only m1 -> read_only m2 -> read_only (if b then m1 else m2).
Proof. destruct b; auto. Qed.

End MethodFacts.

Create HintDb read_only.
#[export] Hint Resolve read_only_ret read_only_lift read_only_gets read_only_if : read_only.
#[export] Hint Extern 2 (read_only (bind _ _)) =>
  apply read_only_bind; [| intros ?] : read_only.

(** ** Decoding an action code *)

Section DecodeFacts.
Local Open Scope Q_scope.

Lemma mod_4_cases (a : Z) :
  (a mod 4 = 0 \/ a mod 4 = 1 \/ a mod 4 = 2 \/ a mod 4 = 3)%Z.
Proof. pose proof (Z.mod_pos_bound a 4). lia. Qed.

(** The enumeration lookup at [action % len(TradeType)] never fails and
    yields the side the specification tabulates. *)
Lemma call_mod_len (action : Z) :
  TradeTypes.call (action mod TradeTypes.len) = Ok (Spec.side action).
Proof.
  unfold Spec.side. change TradeTypes.len with 4%Z.
  destruct (mod_4_cases action) as [E | [E | [E | E]]]; rewrite E; reflexivity.
Qed.

Lemma inject_Z_nonzero (n : Z) : n <> 0%Z -> ~ inject_Z n == 0.
Proof.
  intros H E. apply H. change 0 with (inject_Z 0) in E.
  exact (proj1 (inject_Z_injective n 0) E).
Qed.

Lemma splits_nonzero (n : Z) : n <> 0%Z -> ~ inject_Z n / inject_Z 4 == 0.
Proof.
  intros H E. apply (inject_Z_nonzero n H).
  assert (E' : inject_Z n == inject_Z n / inject_Z 4 * inject_Z 4) by (field; discriminate).
  rewrite E' , E. reflexivity.
Qed.

Lemma int_div_4 (action : Z) : Num.int (inject_Z action / inject_Z 4) = (action ÷ 4)%Z.
Proof.
  unfold Num.int. simpl. now rewrite Z.mul_1_r.
Qed.

Lemma code_fraction_spec (n action : Z) :
  n <> 0%Z -> (0 <= action)%Z -> code_fraction n action == Spec.fraction n action.
Proof.
  intros Hn Ha. unfold code_fraction, Spec.fraction.
  rewrite int_div_4, Z.quot_div_nonneg by lia.
  rewrite inject_Z_plus. apply inject_Z_nonzero in Hn.
  change (inject_Z 1) with 1. change (inject_Z 4) with 4. field. exact Hn.
Qed.

End DecodeFacts.

(** ** The stateless scheme *)

Section DiscreteActionsFacts.
Local Open Scope Q_scope.
Import DiscreteActions.

Lemma get_trade_type_ok (self : t) (action : Z) :
  _get_trade_type action self = (self, Ok (Spec.side action)).
Proof. unfold _get_trade_type, lift. now rewrite call_mod_len. Qed.

Lemma n_splits_ok (self : t) :
  n_splits self = (self, Ok (inject_Z (n_actions self) / inject_Z 4)).
Proof.
  unfold n_splits, bind, gets, lift. change TradeTypes.len with 4%Z.
  now rewrite div_ok by discriminate.
Qed.

Lemma get_trade_amount_ok (self : t) (action : Z) :
  n_actions self <> 0%Z ->
  _get_trade_amount action self = (self, Ok (code_fraction (n_actions self) action)).
Proof.
  intros Hn. unfold _get_trade_amount. change TradeTypes.len with 4%Z.
  rewrite (bind_ok _ _ self self (inject_Z action / inject_Z 4))
    by (unfold lift; now rewrite div_ok by discriminate).
  rewrite (bind_ok _ _ _ _ _ (n_splits_ok self)).
  rewrite (bind_ok _ _ self self (1 / (inject_Z (n_actions self) / inject_Z 4)))
    by (unfold lift; now rewrite div_ok by now apply splits_nonzero).
  rewrite (bind_ok _ _ _ _ _ (n_splits_ok self)).
  rewrite (bind_ok _ _ self self (1 / (inject_Z (n_actions self) / inject_Z 4)))
    by (unfold lift; now rewrite div_ok by now apply splits_nonzero).
  reflexivity.
Qed.

Lemma get_trade_amount_zero_buckets (self : t) (action : Z) :
  n_actions self = 0%Z ->
  _get_trade_amount action self = (self, Raise ZeroDivisionError).
Proof.
  intros Hn. unfold _get_trade_amount. change TradeTypes.len with 4%Z.
  rewrite (bind_ok _ _ self self (inject_Z action / inject_Z 4))
    by (unfold lift; now rewrite div_ok by discriminate).
  rewrite (bind_ok _ _ _ _ _ (n_splits_ok self)).
  apply bind_raise. unfold lift. rewrite div_zero; [reflexivity |].
  rewrite Hn. reflexivity.
Qed.

 
Lemma get_trade_buy (self : t) (action : Z) :
  n_actions self <> 0%Z ->
  TradeTypes.is_buy (Spec.side action) = true ->
  ~ current_price (_exchange self) (instrument_symbol self) == 0 ->
  get_trade action self
  = (self, Ok (mkTrade (instrument_symbol self) (Spec.side action)
                       (buy_amount self action)
                       (current_price (_exchange self) (instrument_symbol self)))).
Proof.
  intros Hn Hb Hp. unfold get_trade.
  rewrite (bind_ok _ _ _ _ _ (get_trade_type_ok self action)).
  rewrite (bind_ok _ _ _ _ _ (get_trade_amount_ok self action Hn)).
  unfold bind at 1 2 3 4 5, gets. cbv beta iota. rewrite Hb.
  unfold bind, lift, ret, gets. rewrite div_ok by exact Hp. reflexivity.
Qed.

Lemma get_trade_sell (self : t) (action : Z) :
  n_actions self <> 0%Z ->
  TradeTypes.is_buy (Spec.side action) = false ->
  get_trade action self
  = (self, Ok (mkTrade (instrument_symbol self) (Spec.side action)
                       (sell_amount self action)
                       (current_price (_exchange self) (instrument_symbol self)))).
Proof.
  intros Hn Hb. unfold get_trade.
  rewrite (bind_ok _ _ _ _ _ (get_trade_type_ok self action)).
  rewrite (bind_ok _ _ _ _ _ (get_trade_amount_ok self action Hn)).
  unfold bind at 1 2 3 4 5, gets. cbv beta iota. rewrite Hb.
  assert (Hs : TradeTypes.is_sell (Spec.side action) = true)
    by (destruct (Spec.side action); simpl in *; congruence).
  rewrite Hs. reflexivity.
Qed.

Lemma get_trade_read_only (action : Z) : read_only (get_trade action).
Proof.
  unfold get_trade, _get_trade_type, _get_trade_amount, n_splits.
  repeat (auto with read_only; apply read_only_bind; [| intros ?]);
    auto 6 with read_only.
Qed.

End DiscreteActionsFacts.

(** ** The position-tracking scheme *)

Section TargetStopFacts.
Local Open Scope Q_scope.
Import TargetStopActionStrategy.

(** The enumeration class is none of its members, so the guard of the
    new-entry branch, which compares the class with two members, is false
    for every action. *)
Lemma class_is_no_member (m : TradeType) :
  TradeTypes.is_ TradeTypes.Class (TradeTypes.Member m) = false.
Proof. reflexivity. Qed.

(** With the loop variable [trade] bound to an index, the first subscript
    of the loop body fails. *)
Lemma exit_body_index (cp : Q) (cs i : Z) (idx : pyobj) (self : t) :
  exit_body cp cs (PyInt i) idx self = (self, Raise TypeError).
Proof. reflexivity. Qed.

Lemma enumerate_cons (e : list Q) (l : list (list Q)) :
  exists rest, enumerate (e :: l) = (PyInt 0, PyList e) :: rest.
Proof. unfold enumerate. simpl. eauto. Qed.

Lemma exit_loop_empty (cp : Q) (cs : Z) (self : t) :
  exit_loop cp cs (enumerate []) self = (self, Ok None).
Proof. reflexivity. Qed.

Lemma exit_loop_nonempty (cp : Q) (cs : Z) (e : list Q) (l : list (list Q)) (self : t) :
  exit_loop cp cs (enumerate (e :: l)) self = (self, Raise TypeError).
Proof.
  destruct (enumerate_cons e l) as [rest ->]. simpl.
  apply bind_raise, exit_body_index.
Qed.

(** [get_trade] up to the exit scan: the decoding succeeds, the step counter
    is incremented, and the outcome of the scan decides the rest. *)
Lemma get_trade_decoded (self : t) (action : Z) :
  nondegenerate self ->
  get_trade action self
  = match exit_loop (rounded_price self) (current_step self)
                    (enumerate (trading_history self))
                    (set_current_step (current_step self + 1) self) with
    | (self', Ok (Some tr)) => (self', Ok tr)
    | (self', Ok None) =>
        (self', Ok (mkTrade (instrument_symbol self') (Spec.side action)
                            (Exchanges.instrument_balance (_exchange self)
                                                          (instrument_symbol self))
                            (rounded_price self)))
    | (self', Raise e) => (self', Raise e)
    end.
Proof.
  intros (Hpt & Hsl & Hps).
  unfold get_trade, bind, gets, lift, modify, ret.
  change TradeTypes.len with 4%Z.
  rewrite call_mod_len, !class_is_no_member.
  repeat (rewrite div_ok by
            first [ discriminate | now apply inject_Z_nonzero | now apply splits_nonzero ]).
  cbv beta iota. simpl orb. cbv beta iota.
  unfold rounded_price, Exchanges.base_precision. simpl trading_history.
  destruct (exit_loop _ _ _ _) as [self' [[tr |] | e]]; reflexivity.
Qed.

Lemma get_trade_on_empty_ledger (self : t) (action : Z) :
  nondegenerate self ->
  trading_history self = [] ->
  get_trade action self
  = (set_current_step (current_step self + 1) self,
     Ok (mkTrade (instrument_symbol self) (Spec.side action)
                 (Exchanges.instrument_balance (_exchange self) (instrument_symbol self))
                 (rounded_price self))).
Proof.
  intros Hc Hl. rewrite get_trade_decoded by exact Hc.
  rewrite Hl, exit_loop_empty. reflexivity.
Qed.

Lemma get_trade_on_nonempty_ledger (self : t) (action : Z) (e : list Q) (l : list (list Q)) :
  nondegenerate self ->
  trading_history self = e :: l ->
  get_trade action self
  = (set_current_step (current_step self + 1) self, Raise TypeError).
Proof.
  intros Hc Hl. rewrite get_trade_decoded by exact Hc.
  rewrite Hl, exit_loop_nonempty. reflexivity.
Qed.

(** [reset] restores the step counter and empties the ledger. *)
Lemma reset_clears (self : t) :
  current_step (fst (reset self)) = 0%Z /\ trading_history (fst (reset self)) = [].
Proof. split; reflexivity. Qed.

End TargetStopFacts.

(** * The claims *)

(** ** Exchange *)

Section ExchangeClaims.
Local Open Scope Q_scope.

(** C7: with the configured bounds in order, [_bind_trade_price] and
    [_bind_trade_amount] return, for every input, a value between the lower
    and the upper bound, both rounded to the configured precision (the input
    is rounded to that precision before it is compared); and each of the two
    functions is idempotent: applied to its own output it returns that output. *)
Theorem bind_trade_bounded_and_idempotent (self : Exchange) (p a : Q) :
  _min_trade_price self <= _max_trade_price self ->
  _min_trade_amount self <= _max_trade_amount self ->
  (Num.round (_min_trade_price self) (_base_precision self)
     <= Exchanges._bind_trade_price self p
     <= Num.round (_max_trade_price self) (_base_precision self))
  /\ (Num.round (_min_trade_amount self) (_instrument_precision self)
        <= Exchanges._bind_trade_amount self a
        <= Num.round (_max_trade_amount self) (_instrument_precision self))
  /\ Exchanges._bind_trade_price self (Exchanges._bind_trade_price self p)
     = Exchanges._bind_trade_price self p
  /\ Exchanges._bind_trade_amount self (Exchanges._bind_trade_amount self a)
     = Exchanges._bind_trade_amount self a.
Proof.
  intros Hp Ha. rewrite !bind_trade_price_clamp, !bind_trade_amount_clamp.
  repeat split.
  - now apply clamp_lower.
  - apply clamp_upper.
  - now apply clamp_lower.
  - apply clamp_upper.
  - apply clamp_idem.
  - apply clamp_idem.
Qed.

Lemma bind_trade_bounded_and_idempotent_witness :
  let self := exchange0 1000 ∅ 100 in
  (Num.round (_min_trade_price self) 2 <= Exchanges._bind_trade_price self (12345 # 1000)
     <= Num.round (_max_trade_price self) 2)
  /\ (Num.round (_min_trade_amount self) 2 <= Exchanges._bind_trade_amount self 0
        <= Num.round (_max_trade_amount self) 2)
  /\ Exchanges._bind_trade_price self (Exchanges._bind_trade_price self (12345 # 1000))
     = Exchanges._bind_trade_price self (12345 # 1000)
  /\ Exchanges._bind_trade_amount self (Exchanges._bind_trade_amount self 0)
     = Exchanges._bind_trade_amount self 0.
Proof.
  intros self.
  apply (bind_trade_bounded_and_idempotent self (12345 # 1000) 0);
    vm_compute; discriminate.
Defined.

(** C8: [net_worth] is the balance plus the sum, over the symbols of the
    portfolio other than the base instrument, of the current price of the
    symbol times the amount held; and, the initial balance not being zero,
    [profit_loss_percent] returns [100 * net_worth / initial_balance]. *)
Theorem net_worth_and_profit_loss_percent (self : Exchange) :
  ~ initial_balance self == 0 ->
  Exchanges.net_worth self == Spec.net_worth self
  /\ exists v, Exchanges.profit_loss_percent self = Ok v
               /\ v == 100 * Spec.net_worth self / initial_balance self.
Proof.
  intros H. split; [apply net_worth_refines |].
  eexists. split; [now apply profit_loss_percent_ok |].
  rewrite net_worth_refines. change (inject_Z 100) with 100. field. exact H.
Qed.

Lemma net_worth_and_profit_loss_percent_witness :
  let self := exchange0 1000 {[ BTC := 3; USD := 5 ]} 100 in
  Exchanges.net_worth self == Spec.net_worth self
  /\ exists v, Exchanges.profit_loss_percent self = Ok v
               /\ v == 100 * Spec.net_worth self / initial_balance self.
Proof.
  intros self. apply (net_worth_and_profit_loss_percent self).
  vm_compute. discriminate.
Defined.

End ExchangeClaims.

(** ** The stateless scheme *)

Section DiscreteActionsClaims.
Local Open Scope Q_scope.
Import DiscreteActions.



(** At the numbering from zero the parametrised methods are the methods of
    [DiscreteActions]. *)
Lemma get_trade_over_numbering_from_0 (action : Z) (self : t) :
  DiscreteActionsOver.get_trade TradeTypes.call action self = get_trade action self
  /\ DiscreteActionsOver._get_trade_type TradeTypes.call action self
     = _get_trade_type action self.
Proof. split; reflexivity. Qed.


(** With the members numbered from zero, as [TradeTypes.call] numbers them,
    action code 6 of twenty decodes to [LimitSell]: the side of an action
    code follows the numbering. *)
Example action_6_numbered_from_0 :
  let self := da 20 (exchange0 1000 {[ BTC := 3 ]} 100) in
  exists tr, snd (get_trade 6 self) = Ok tr /\ trade_type tr = LIMIT_SELL.
Proof.
  intros self.
  rewrite (get_trade_sell self 6) by (vm_compute; congruence).
  simpl. eauto.
Qed.



(** C6: the stateless [get_trade] is a pure function of the action code and
    the scheme (which holds the exchange state): for every in-range action
    code, the current price not being zero, a call returns a Trade and leaves
    the scheme as it was, and a second call with the same action code returns
    the same Trade and again leaves the scheme as it was. *)
Theorem stateless_get_trade_is_pure (self : t) (action : Z) :
  (0 <= action < n_actions self)%Z ->
  ~ current_price (_exchange self) (instrument_symbol self) == 0 ->
  exists tr, get_trade action self = (self, Ok tr)
             /\ get_trade action (fst (get_trade action self)) = (self, Ok tr).
Proof.
  intros Ha Hp.
  assert (Hn : n_actions self <> 0%Z) by lia.
  assert (H : fst (get_trade action self) = self) by apply get_trade_read_only.
  rewrite H.
  destruct (TradeTypes.is_buy (Spec.side action)) eqn:B.
  - rewrite (get_trade_buy self action Hn B Hp). eauto.
  - rewrite (get_trade_sell self action Hn B). eauto.
Qed.

Lemma stateless_get_trade_is_pure_witness :
  let self := da 20 (exchange0 1000 {[ BTC := 3 ]} 100) in
  exists tr, get_trade 9 self = (self, Ok tr)
             /\ get_trade 9 (fst (get_trade 9 self)) = (self, Ok tr).
Proof.
  intros self. apply (stateless_get_trade_is_pure self 9).
  - unfold self. simpl. lia.
  - vm_compute. discriminate.
Defined.

End DiscreteActionsClaims.

Section ReserveClaims.
Local Open Scope Q_scope.
Import DiscreteActions.

(** When the number of buckets is a multiple of four, the fraction of an
    in-range action code is at most one. *)
Lemma fraction_at_most_one (n action : Z) :
  (n mod 4 = 0)%Z -> (0 <= action < n)%Z -> 0 <= Spec.fraction n action <= 1.
Proof.
  intros Hm Ha. unfold Spec.fraction.
  assert (Hn : (n = 4 * (n / 4))%Z) by (apply Z.div_exact; [discriminate | exact Hm]).
  assert (Hk : (0 <= action / 4)%Z) by (apply Z.div_pos; lia).
  assert (Hu : (action / 4 < n / 4)%Z) by (apply Z.div_lt_upper_bound; lia).
  assert (Hq : 4 * inject_Z (action / 4 + 1) <= inject_Z n).
  { change 4 with (inject_Z 4). rewrite <- inject_Z_mult, <- Zle_Qle. lia. }
  assert (Hz : 0 <= inject_Z (action / 4 + 1)).
  { change 0 with (inject_Z 0). rewrite <- Zle_Qle. lia. }
  assert (Hp : 0 < inject_Z n).
  { change 0 with (inject_Z 0). rewrite <- Zlt_Qlt. lia. }
  change (inject_Z 4) with 4.
  set (k := inject_Z (action / 4 + 1)) in *. set (N := inject_Z n) in *.
  assert (E : k * (4 / N) == (4 * k) / N) by (field; lra).
  rewrite E. split.
  - apply Qle_shift_div_l; [exact Hp | lra].
  - apply Qle_shift_div_r; [exact Hp | lra].
Qed.

(** C5, as stated, fails: with six buckets the in-range action code 5 is a
    buy whose fraction is 4/3, and the cost of the returned Trade exceeds the
    balance less the reserve by far more than the rounding tolerance. *)
Lemma reserve_exceeded_with_6_actions :
  let self := da 6 (exchange0 1000 ∅ 100) in
  (0 <= 5 < n_actions self)%Z
  /\ TradeTypes.is_buy (Spec.side 5) = true
  /\ exists tr, snd (get_trade 5 self) = Ok tr
                /\ ~ amount tr * price tr
                     <= balance (_exchange self) * (98 # 100)
                        + price tr * tolerance (_instrument_precision (_exchange self)).
Proof.
  intros self. split; [unfold self; simpl; lia |]. split; [reflexivity |].
  eexists. split; [vm_compute; reflexivity |].
  vm_compute. intros H. now apply H.
Qed.

(** C5, amended: in the stateless scheme with a number of buckets that is a
    multiple of four, a balance that is not negative and a positive current
    price, every in-range action code that decodes to a buy returns a Trade
    whose amount times its price is at most 98% of the balance, up to the
    rounding of the amount (half a unit of its last decimal place, at the
    price of the Trade). *)
Theorem buy_cost_within_reserve (self : t) (action : Z) :
  (n_actions self mod 4 = 0)%Z ->
  (0 <= action < n_actions self)%Z ->
  0 <= balance (_exchange self) ->
  0 < current_price (_exchange self) (instrument_symbol self) ->
  TradeTypes.is_buy (Spec.side action) = true ->
  exists tr, snd (get_trade action self) = Ok tr
             /\ trade_type tr = Spec.side action
             /\ amount tr * price tr
                <= balance (_exchange self) * (98 # 100)
                   + price tr * tolerance (_instrument_precision (_exchange self)).
Proof.
  intros Hm Ha Hb Hp Hs.
  assert (Hn : n_actions self <> 0%Z) by lia.
  rewrite (get_trade_buy self action Hn Hs) by lra.
  eexists. split; [reflexivity |]. split; [reflexivity |]. simpl.
  unfold buy_amount.
  pose proof (fraction_at_most_one _ _ Hm Ha) as [F0 F1].
  rewrite <- code_fraction_spec in F0, F1 by lia.
  set (f := code_fraction (n_actions self) action) in *.
  set (b := balance (_exchange self)) in *.
  set (c := current_price (_exchange self) (instrument_symbol self)) in *.
  set (tol := tolerance (_instrument_precision (_exchange self))).
  pose proof (round_error (b * (98 # 100) * f / c) (_instrument_precision (_exchange self)))
    as [_ U].
  fold tol in U.
  set (r := Num.round (b * (98 # 100) * f / c) (_instrument_precision (_exchange self))) in *.
  assert (E : b * (98 # 100) * f / c * c == b * (98 # 100) * f) by (field; lra).
  set (x := b * (98 # 100) * f / c) in *.
  assert (H1 : 0 <= (tol - (r - x)) * c) by (apply Qmult_le_0_compat; lra).
  assert (H2 : 0 <= b * (1 - f)) by (apply Qmult_le_0_compat; lra).
  assert (H3 : r * c == x * c + tol * c - (tol - (r - x)) * c) by ring.
  rewrite H3, E.
  assert (H4 : b * (98 # 100) * f == b * (98 # 100) - (98 # 100) * (b * (1 - f))) by ring.
  rewrite H4. lra.
Qed.

Lemma buy_cost_within_reserve_witness :
  let self := da 20 (exchange0 1000 ∅ 100) in
  exists tr, snd (get_trade 1 self) = Ok tr
             /\ trade_type tr = Spec.side 1
             /\ amount tr * price tr
                <= balance (_exchange self) * (98 # 100)
                   + price tr * tolerance (_instrument_precision (_exchange self)).
Proof.
  intros self. apply (buy_cost_within_reserve self 1).
  - reflexivity.
  - unfold self. simpl. lia.
  - vm_compute. discriminate.
  - reflexivity.
  - reflexivity.
Defined.

End ReserveClaims.

(** ** Both schemes *)

Section SideClaims.
Local Open Scope Q_scope.

(** C4: for every in-range action code the side of the Trade is
    [TradeType(action_code mod 4)], the members taken in the order
    [{LimitBuy, MarketBuy, LimitSell, MarketSell}].  The stateless scheme
    returns such a Trade (the current price not being zero); every Trade the
    position-tracking scheme returns has that side, and on an empty ledger it
    returns one. *)
Theorem side_is_action_mod_4 (action : Z) :
  (forall self : DiscreteActions.t,
      (0 <= action < DiscreteActions.n_actions self)%Z ->
      ~ current_price (DiscreteActions._exchange self)
                      (DiscreteActions.instrument_symbol self) == 0 ->
      exists tr, snd (DiscreteActions.get_trade action self) = Ok tr
                 /\ trade_type tr = Spec.side action)
  /\ (forall self : TargetStopActionStrategy.t,
         (0 <= action < TargetStopActionStrategy.position_size self)%Z ->
         range_len (TargetStopActionStrategy.profit_target_range self) <> 0%Z ->
         range_len (TargetStopActionStrategy.stop_loss_range self) <> 0%Z ->
         (forall tr, snd (TargetStopActionStrategy.get_trade action self) = Ok tr ->
                     trade_type tr = Spec.side action)
         /\ (TargetStopActionStrategy.trading_history self = [] ->
             exists tr, snd (TargetStopActionStrategy.get_trade action self) = Ok tr
                        /\ trade_type tr = Spec.side action)).
Proof.
  split.
  - intros self Ha Hp.
    assert (Hn : DiscreteActions.n_actions self <> 0%Z) by lia.
    destruct (TradeTypes.is_buy (Spec.side action)) eqn:B.
    + rewrite (get_trade_buy self action Hn B Hp). simpl. eauto.
    + rewrite (get_trade_sell self action Hn B). simpl. eauto.
  - intros self Ha Hpt Hsl.
    assert (Hc : nondegenerate self) by (repeat split; [exact Hpt | exact Hsl | lia]).
    split.
    + intros tr H.
      destruct (TargetStopActionStrategy.trading_history self) as [| e l] eqn:L.
      * rewrite (get_trade_on_empty_ledger self action Hc L) in H.
        simpl in H. injection H as <-. reflexivity.
      * rewrite (get_trade_on_nonempty_ledger self action e l Hc L) in H.
        discriminate H.
    + intros L. rewrite (get_trade_on_empty_ledger self action Hc L). simpl. eauto.
Qed.

Lemma side_is_action_mod_4_witness :
  (exists tr, snd (DiscreteActions.get_trade 7 (da 20 (exchange0 1000 {[ BTC := 3 ]} 100)))
              = Ok tr
              /\ trade_type tr = MARKET_SELL)
  /\ (exists tr, snd (TargetStopActionStrategy.get_trade
                        7 (ts [] 0 (exchange0 1000 {[ BTC := 3 ]} 100)))
                 = Ok tr
                 /\ trade_type tr = MARKET_SELL).
Proof.
  destruct (side_is_action_mod_4 7) as [HD HT]. split.
  - apply (HD (da 20 (exchange0 1000 {[ BTC := 3 ]} 100))).
    + simpl. lia.
    + vm_compute. discriminate.
  - apply (HT (ts [] 0 (exchange0 1000 {[ BTC := 3 ]} 100))).
    + simpl. lia.
    + vm_compute. discriminate.
    + vm_compute. discriminate.
    + reflexivity.
Defined.

End SideClaims.

(** ** The position-tracking scheme *)

Section TargetStopClaims.
Local Open Scope Q_scope.
Import TargetStopActionStrategy.

Lemma ts_nondegenerate ledger now ex : nondegenerate (ts ledger now ex).
Proof. repeat split; vm_compute; discriminate. Qed.

(** C1: the code does not do what the claim says.  On every non-empty ledger
    the call raises [TypeError] at the first subscript of the scan, the
    loop variables being bound in the order (index, entry): no entry is
    removed and no Trade is returned, whether or not an exit condition of an
    entry holds. *)
Theorem exit_scan_raises_on_open_positions
        (self : t) (action : Z) (e : list Q) (l : list (list Q)) :
  nondegenerate self ->
  trading_history self = e :: l ->
  snd (get_trade action self) = Raise TypeError
  /\ trading_history (fst (get_trade action self)) = e :: l.
Proof.
  intros Hc Hl. rewrite (get_trade_on_nonempty_ledger self action e l Hc Hl).
  simpl. split; [reflexivity | exact Hl].
Qed.

Lemma exit_scan_raises_on_open_positions_witness :
  let self := ts [position0] 1000 (exchange0 1000 {[ BTC := 3 ]} 100) in
  Spec.exit_condition (rounded_price self) (current_step self) (timeout_steps self)
                      position0 = true
  /\ snd (get_trade 3 self) = Raise TypeError
  /\ trading_history (fst (get_trade 3 self)) = [position0].
Proof.
  intros self. split; [reflexivity |].
  apply (exit_scan_raises_on_open_positions self 3 position0 []);
    [apply ts_nondegenerate | reflexivity].
Defined.

(** C2: the code does not do what the claim says.  On an empty ledger, where
    no exit can fire, an action code that decodes to a buy returns a Trade
    whose amount is the instrument balance held, not the rounded share of the
    balance, and the ledger stays empty: the guard of the new-entry branch
    compares the enumeration class, not the decoded side, with the buy
    members. *)
Theorem buy_opens_no_position (self : t) (action : Z) :
  nondegenerate self ->
  trading_history self = [] ->
  TradeTypes.is_buy (Spec.side action) = true ->
  exists tr, snd (get_trade action self) = Ok tr
             /\ trade_type tr = Spec.side action
             /\ amount tr = Exchanges.instrument_balance (_exchange self)
                                                         (instrument_symbol self)
             /\ price tr = rounded_price self
             /\ trading_history (fst (get_trade action self)) = [].
Proof.
  intros Hc Hl _. rewrite (get_trade_on_empty_ledger self action Hc Hl). simpl.
  eexists. repeat split. exact Hl.
Qed.

Lemma buy_opens_no_position_witness :
  let self := ts [] 0 (exchange0 1000 {[ BTC := 3 ]} 100) in
  exists tr, snd (get_trade 1 self) = Ok tr
             /\ trade_type tr = Spec.side 1
             /\ amount tr = Exchanges.instrument_balance (_exchange self)
                                                         (instrument_symbol self)
             /\ price tr = rounded_price self
             /\ trading_history (fst (get_trade 1 self)) = [].
Proof.
  intros self.
  apply (buy_opens_no_position self 1);
    [apply ts_nondegenerate | reflexivity | reflexivity].
Defined.

(** The amount a new entry would have at that input, and the one returned. *)
Example buy_amount_expected_and_returned :
  let self := ts [] 0 (exchange0 1000 {[ BTC := 3 ]} 100) in
  Num.round (balance (_exchange self) * (99 # 100) * Spec.fraction 20 1
             / rounded_price self) 2 == 198 # 100
  /\ exists tr, snd (get_trade 1 self) = Ok tr /\ amount tr = 3.
Proof.
  intros self. split; [vm_compute; reflexivity |].
  rewrite (get_trade_on_empty_ledger self 1 (ts_nondegenerate _ _ _) eq_refl).
  simpl. eexists. split; reflexivity.
Qed.

(** In the position-tracking scheme the cost of a buy is not tied to the
    balance: with nothing left of it and three units held, a buy is returned
    for the three units. *)
Example tracking_buy_cost_exceeds_reserve :
  let self := ts [] 0 (exchange0 0 {[ BTC := 3 ]} 100) in
  exists tr, snd (get_trade 1 self) = Ok tr
             /\ TradeTypes.is_buy (trade_type tr) = true
             /\ ~ amount tr * price tr
                  <= balance (_exchange self) * (99 # 100)
                     + price tr * tolerance (_instrument_precision (_exchange self)).
Proof.
  intros self.
  rewrite (get_trade_on_empty_ledger self 1 (ts_nondegenerate _ _ _) eq_refl).
  simpl. eexists. split; [reflexivity |]. split; [reflexivity |].
  vm_compute. intros H. now apply H.
Qed.

(** C9: a call of [get_trade] increments [current_step] by exactly one,
    whatever the ledger holds and whatever the action decodes to. *)
Theorem current_step_incremented_once (self : t) (action : Z) :
  nondegenerate self ->
  current_step (fst (get_trade action self)) = (current_step self + 1)%Z.
Proof.
  intros Hc. destruct (trading_history self) as [| e l] eqn:L.
  - now rewrite (get_trade_on_empty_ledger self action Hc L).
  - now rewrite (get_trade_on_nonempty_ledger self action e l Hc L).
Qed.

Lemma current_step_incremented_once_witness :
  current_step (fst (get_trade 2 (ts [] 41 (exchange0 1000 {[ BTC := 3 ]} 100)))) = 42%Z.
Proof.
  apply (current_step_incremented_once (ts [] 41 (exchange0 1000 {[ BTC := 3 ]} 100)) 2).
  apply ts_nondegenerate.
Defined.

(** C10: the code does not do what the claim says.  With one open position
    that meets none of the exit conditions and an action code that decodes
    to a sell, the call returns no Trade: it raises [TypeError] in the scan. *)
Theorem sell_with_open_position_raises :
  let self := ts [position0] 1 (exchange0 1000 {[ BTC := 3 ]} 100) in
  Spec.exit_condition (rounded_price self) (current_step self) (timeout_steps self)
                      position0 = false
  /\ TradeTypes.is_sell (Spec.side 2) = true
  /\ get_trade 2 self = (set_current_step 2 self, Raise TypeError).
Proof.
  intros self. split; [reflexivity |]. split; [reflexivity |].
  apply (get_trade_on_nonempty_ledger self 2 position0 []);
    [apply ts_nondegenerate | reflexivity].
Qed.

(** On an empty ledger a sell falls through with the instrument balance held. *)
Lemma sell_on_empty_ledger (self : t) (action : Z) :
  nondegenerate self ->
  trading_history self = [] ->
  TradeTypes.is_sell (Spec.side action) = true ->
  exists tr, snd (get_trade action self) = Ok tr
             /\ trade_type tr = Spec.side action
             /\ amount tr = Exchanges.instrument_balance (_exchange self)
                                                         (instrument_symbol self)
             /\ price tr = rounded_price self
             /\ trading_history (fst (get_trade action self)) = trading_history self.
Proof.
  intros Hc Hl _. rewrite (get_trade_on_empty_ledger self action Hc Hl). simpl.
  eexists. repeat split.
Qed.

End TargetStopClaims.

(** * Further properties of the code *)

(** ** Exchange: binding prices and amounts *)

Section BindFacts.
Local Open Scope Q_scope.

Lemma max_mono_l a a' b : a <= a' -> Num.max a b <= Num.max a' b.
Proof.
  intros H.
  destruct (max_cases a b) as [[H1 ->] | [H1 ->]];
    destruct (max_cases a' b) as [[H2 ->] | [H2 ->]]; lra.
Qed.

Lemma min_mono_r a b b' : b <= b' -> Num.min a b <= Num.min a b'.
Proof.
  intros H.
  destruct (min_cases a b) as [[H1 ->] | [H1 ->]];
    destruct (min_cases a b') as [[H2 ->] | [H2 ->]]; lra.
Qed.

(** Two rounded values that are equal as numbers are the same value. *)
Lemma round_canonical x y p q : Num.round x p == Num.round y q -> Num.round x p = Num.round y q.
Proof.
  intros H. apply Qred_complete in H. unfold Num.round in *.
  now rewrite !Qcanon.Qred_involutive in H.
Qed.

Lemma clamp_mono lo hi p x y : x <= y -> clamp lo hi p x <= clamp lo hi p y.
Proof.
  intros H. unfold clamp. apply min_mono_r, max_mono_l, round_mono, H.
Qed.

Lemma clamp_in_range lo hi p x :
  Num.round lo p <= Num.round x p <= Num.round hi p ->
  clamp lo hi p x = Num.round x p.
Proof.
  intros [L U]. unfold clamp. rewrite (max_eq_l _ _ L).
  destruct (min_cases (Num.round hi p) (Num.round x p)) as [[H ->] | [H ->]];
    [reflexivity |].
  apply round_canonical. lra.
Qed.

Lemma clamp_above lo hi p x : lo <= hi -> hi <= x -> clamp lo hi p x = Num.round hi p.
Proof.
  intros Hlh Hx. apply (round_mono _ _ p) in Hlh. apply (round_mono _ _ p) in Hx.
  unfold clamp. rewrite (max_eq_l (Num.round x p) (Num.round lo p)) by lra.
  now apply min_eq_l.
Qed.

Lemma clamp_below lo hi p x : lo <= hi -> x <= lo -> clamp lo hi p x = Num.round lo p.
Proof.
  intros Hlh Hx. apply (round_mono _ _ p) in Hlh. apply (round_mono _ _ p) in Hx.
  unfold clamp.
  assert (Em : Num.max (Num.round x p) (Num.round lo p) = Num.round lo p).
  { destruct (max_cases (Num.round x p) (Num.round lo p)) as [[H ->] | [H ->]];
      [reflexivity |].
    apply round_canonical. lra. }
  rewrite Em.
  destruct (min_cases (Num.round hi p) (Num.round lo p)) as [[H ->] | [H ->]];
    [reflexivity |].
  apply round_canonical. lra.
Qed.

(** X1: [_bind_trade_price] and [_bind_trade_amount] are monotone: a larger
    input is never bound to a smaller value. *)
Theorem bind_trade_monotone (self : Exchange) (x y : Q) :
  x <= y ->
  Exchanges._bind_trade_price self x <= Exchanges._bind_trade_price self y
  /\ Exchanges._bind_trade_amount self x <= Exchanges._bind_trade_amount self y.
Proof.
  intros H. rewrite !bind_trade_price_clamp, !bind_trade_amount_clamp.
  split; now apply clamp_mono.
Qed.

Lemma bind_trade_monotone_witness :
  let self := exchange0 1000 ∅ 100 in
  Exchanges._bind_trade_price self (1 # 3) <= Exchanges._bind_trade_price self (2 # 3)
  /\ Exchanges._bind_trade_amount self (1 # 3) <= Exchanges._bind_trade_amount self (2 # 3).
Proof.
  intros self. apply (bind_trade_monotone self (1 # 3) (2 # 3)).
  vm_compute. discriminate.
Defined.

(** X2: with the bounds in order, a price at or above the configured maximum
    is bound to the rounded maximum and a price at or below the configured
    minimum to the rounded minimum; likewise for amounts. *)
Theorem bind_trade_saturates (self : Exchange) (x : Q) :
  _min_trade_price self <= _max_trade_price self ->
  _min_trade_amount self <= _max_trade_amount self ->
  (_max_trade_price self <= x ->
   Exchanges._bind_trade_price self x
   = Num.round (_max_trade_price self) (_base_precision self))
  /\ (x <= _min_trade_price self ->
      Exchanges._bind_trade_price self x
      = Num.round (_min_trade_price self) (_base_precision self))
  /\ (_max_trade_amount self <= x ->
      Exchanges._bind_trade_amount self x
      = Num.round (_max_trade_amount self) (_instrument_precision self))
  /\ (x <= _min_trade_amount self ->
      Exchanges._bind_trade_amount self x
      = Num.round (_min_trade_amount self) (_instrument_precision self)).
Proof.
  intros Hp Ha. rewrite !bind_trade_price_clamp, !bind_trade_amount_clamp.
  repeat split; intros Hx;
    first [ now apply clamp_above | now apply clamp_below ].
Qed.

Lemma bind_trade_saturates_witness :
  let self := exchange0 1000 ∅ 100 in
  Exchanges._bind_trade_price self 1000000000 = 100000000
  /\ Exchanges._bind_trade_amount self 0 = 0.
Proof.
  intros self.
  destruct (bind_trade_saturates self 1000000000) as (H1 & _ & _ & _);
    [vm_compute; discriminate | vm_compute; discriminate |].
  destruct (bind_trade_saturates self 0) as (_ & _ & _ & H4);
    [vm_compute; discriminate | vm_compute; discriminate |].
  split.
  - rewrite H1 by (vm_compute; discriminate). reflexivity.
  - rewrite H4 by (vm_compute; discriminate). reflexivity.
Defined.

(** X3: a value between the configured minimum and maximum is only rounded
    by the binding, so the bound value is within half a unit of the last
    decimal place of the input. *)
Theorem bind_trade_within_bounds_rounds (self : Exchange) (x : Q) :
  (_min_trade_price self <= x <= _max_trade_price self ->
   Exchanges._bind_trade_price self x = Num.round x (_base_precision self)
   /\ - tolerance (_base_precision self)
      <= Exchanges._bind_trade_price self x - x
      <= tolerance (_base_precision self))
  /\ (_min_trade_amount self <= x <= _max_trade_amount self ->
      Exchanges._bind_trade_amount self x = Num.round x (_instrument_precision self)
      /\ - tolerance (_instrument_precision self)
         <= Exchanges._bind_trade_amount self x - x
         <= tolerance (_instrument_precision self)).
Proof.
  rewrite !bind_trade_price_clamp, !bind_trade_amount_clamp.
  split; intros [L U];
    (rewrite clamp_in_range by (split; now apply round_mono));
    (split; [reflexivity | apply round_error]).
Qed.

Lemma bind_trade_within_bounds_rounds_witness :
  let self := exchange0 1000 ∅ 100 in
  Exchanges._bind_trade_price self (12345 # 1000) = Num.round (12345 # 1000) 2
  /\ - tolerance 2 <= Exchanges._bind_trade_price self (12345 # 1000) - (12345 # 1000)
     <= tolerance 2.
Proof.
  intros self.
  destruct (bind_trade_within_bounds_rounds self (12345 # 1000)) as [H _].
  apply H. split; vm_compute; discriminate.
Defined.

End BindFacts.

(** ** Exchange: net worth, profit and loss, observation space *)

Section WorthFacts.
Local Open Scope Q_scope.

Lemma net_worth_items (ex : Exchange) :
  Exchanges.net_worth ex
  == balance ex
     + Spec.sum (map (holding_value ex) (filter (not_base ex) (map_to_list (portfolio ex)))).
Proof.
  unfold Exchanges.net_worth.
  destruct (decide (portfolio ex = ∅)) as [E | NE].
  - rewrite E, map_to_list_empty. simpl. lra.
  - apply net_worth_loop.
Qed.

Lemma items_insert (ex : Exchange) (m : gmap string Q) (s : string) (a : Q) :
  m !! s = None ->
  Spec.sum (map (holding_value ex) (filter (not_base ex) (map_to_list (<[s := a]> m))))
  == Spec.sum (map (holding_value ex) (filter (not_base ex) ((s, a) :: map_to_list m))).
Proof.
  intros H. apply sum_Permutation, Permutation_map.
  apply (filter_Permutation (not_base ex)). now apply map_to_list_insert.
Qed.

(** X4: a holding in a symbol not yet in the portfolio, other than the base
    instrument, raises the net worth by the amount held at the current price
    of the symbol. *)
Theorem net_worth_new_holding (ex : Exchange) (s : string) (a : Q) :
  portfolio ex !! s = None ->
  s <> _base_instrument ex ->
  Exchanges.net_worth (with_portfolio (<[s := a]> (portfolio ex)) ex)
  == Exchanges.net_worth ex + current_price ex s * a.
Proof.
  intros Hs Hb. rewrite !net_worth_items. simpl portfolio. simpl balance.
  change (holding_value (with_portfolio (<[s := a]> (portfolio ex)) ex))
    with (holding_value ex).
  change (not_base (with_portfolio (<[s := a]> (portfolio ex)) ex)) with (not_base ex).
  rewrite (items_insert ex _ s a Hs).
  rewrite filter_cons_True by exact Hb. simpl. unfold holding_value at 1. simpl. lra.
Qed.

Lemma net_worth_new_holding_witness :
  let ex := exchange0 1000 {[ BTC := 3 ]} 100 in
  Exchanges.net_worth (with_portfolio (<[ "ETH"%string := 2 ]> (portfolio ex)) ex)
  == Exchanges.net_worth ex + current_price ex "ETH"%string * 2.
Proof.
  intros ex. apply (net_worth_new_holding ex "ETH"%string 2).
  - reflexivity.
  - discriminate.
Defined.

(** X5: a holding in the base instrument itself does not count: putting the
    base symbol into the portfolio leaves the net worth as it is. *)
Theorem net_worth_ignores_base_holding (ex : Exchange) (a : Q) :
  portfolio ex !! _base_instrument ex = None ->
  Exchanges.net_worth (with_portfolio (<[_base_instrument ex := a]> (portfolio ex)) ex)
  == Exchanges.net_worth ex.
Proof.
  intros Hs. rewrite !net_worth_items. simpl portfolio. simpl balance.
  change (holding_value (with_portfolio (<[_base_instrument ex := a]> (portfolio ex)) ex))
    with (holding_value ex).
  change (not_base (with_portfolio (<[_base_instrument ex := a]> (portfolio ex)) ex))
    with (not_base ex).
  rewrite (items_insert ex _ _ a Hs).
  rewrite filter_cons_False; [reflexivity |].
  unfold not_base. simpl. tauto.
Qed.

Lemma net_worth_ignores_base_holding_witness :
  let ex := exchange0 1000 {[ BTC := 3 ]} 100 in
  Exchanges.net_worth (with_portfolio (<[ USD := 500 ]> (portfolio ex)) ex)
  == Exchanges.net_worth ex.
Proof.
  intros ex. apply (net_worth_ignores_base_holding ex 500). reflexivity.
Defined.

Lemma sum_nonneg (l : list Q) : Forall (fun x => 0 <= x) l -> 0 <= Spec.sum l.
Proof.
  induction 1 as [| x l Hx _ IH]; simpl; lra.
Qed.

(** X6: when no price and no holding is negative, the net worth is at least
    the balance. *)
Theorem net_worth_at_least_balance (ex : Exchange) :
  (forall s, 0 <= current_price ex s) ->
  (forall s a, portfolio ex !! s = Some a -> 0 <= a) ->
  balance ex <= Exchanges.net_worth ex.
Proof.
  intros Hp Ha. rewrite net_worth_items.
  assert (H : 0 <= Spec.sum (map (holding_value ex)
                               (filter (not_base ex) (map_to_list (portfolio ex))))).
  { apply sum_nonneg. apply List.Forall_forall. intros v Hv.
    apply in_map_iff in Hv as [[s a] [<- Hi]].
    apply list_elem_of_In, list_elem_of_filter in Hi as [_ Hi].
    apply elem_of_map_to_list in Hi.
    unfold holding_value. simpl.
    apply Qmult_le_0_compat; [apply Hp | now apply (Ha s)]. }
  lra.
Qed.

Lemma net_worth_at_least_balance_witness :
  let ex := exchange0 1000 {[ BTC := 3 ]} 100 in
  balance ex <= Exchanges.net_worth ex.
Proof.
  intros ex. apply (net_worth_at_least_balance ex).
  - intros s. vm_compute. discriminate.
  - intros s a H. unfold ex in H. simpl in H.
    apply lookup_singleton_Some in H as [_ <-]. vm_compute. discriminate.
Defined.

(** X7: [profit_loss_percent] raises [ZeroDivisionError] exactly when the
    initial balance is zero. *)
Theorem profit_loss_percent_raises_iff (ex : Exchange) :
  Exchanges.profit_loss_percent ex = Raise ZeroDivisionError
  <-> initial_balance ex == 0.
Proof.
  unfold Exchanges.profit_loss_percent, Num.div.
  destruct (Qeq_bool (initial_balance ex) 0) eqn:E.
  - apply Qeq_bool_iff in E. tauto.
  - split; [discriminate |].
    intros H. apply Qeq_bool_iff in H. congruence.
Qed.

(** X8: when the net worth equals the initial balance, which is not zero,
    [profit_loss_percent] returns 100, not 0: it is the net worth as a
    percentage of the initial balance. *)
Theorem profit_loss_percent_at_break_even (ex : Exchange) :
  ~ initial_balance ex == 0 ->
  Exchanges.net_worth ex == initial_balance ex ->
  exists v, Exchanges.profit_loss_percent ex = Ok v /\ v == 100.
Proof.
  intros H0 He. rewrite (profit_loss_percent_ok ex H0).
  eexists. split; [reflexivity |].
  rewrite He. change (inject_Z 100) with 100. field. exact H0.
Qed.

Lemma profit_loss_percent_at_break_even_witness :
  exists v, Exchanges.profit_loss_percent (exchange0 1000 ∅ 100) = Ok v /\ v == 100.
Proof.
  apply (profit_loss_percent_at_break_even (exchange0 1000 ∅ 100)).
  - vm_compute. discriminate.
  - reflexivity.
Defined.

Lemma tile_length (a : list Q) (w : nat) :
  length (Np.tile a w) = (w * length a)%nat.
Proof.
  unfold Np.tile. induction w as [| w IH]; simpl; [reflexivity |].
  rewrite length_app, IH. reflexivity.
Qed.

Lemma rows_of_tile (a : list Q) (w : nat) :
  Np.rows_of w (length a) (Np.tile a w) = repeat a w.
Proof.
  unfold Np.tile. induction w as [| w IH]; simpl; [reflexivity |].
  rewrite take_app_length, drop_app_length, IH. reflexivity.
Qed.

Lemma reshape_tile (a : list Q) (w : nat) :
  Np.reshape (Np.tile a w) w (length a) = Ok (repeat a w).
Proof.
  unfold Np.reshape. rewrite tile_length, Nat.eqb_refl, rows_of_tile. reflexivity.
Qed.

(** X9: [observation_space] never fails.  With a window size above one its
    bounds are arrays of [window_size] rows, one column per observation
    column, every lower bound the minimal and every upper bound the maximal
    trade price; with any other window size (one, zero, negative) they are
    flat arrays of one entry per observation column. *)
Theorem observation_space_shape (self : ObservedExchange) :
  let n := length (observation_columns self) in
  let lo := repeat (_min_trade_price (exchange self)) n in
  let hi := repeat (_max_trade_price (exchange self)) n in
  observation_space self
  = Ok (if (1 <? _window_size self)%Z
        then mkBox (Array2 (repeat lo (Z.to_nat (_window_size self))))
                   (Array2 (repeat hi (Z.to_nat (_window_size self))))
                   (_dtype self)
        else mkBox (Array1 lo) (Array1 hi) (_dtype self)).
Proof.
  intros n lo hi. unfold observation_space, Np.tile_scalar. fold n. fold lo. fold hi.
  destruct (1 <? _window_size self)%Z; [| reflexivity].
  assert (Hl : length lo = n) by apply repeat_length.
  assert (Hh : length hi = n) by apply repeat_length.
  rewrite <- Hl at 1. rewrite reshape_tile.
  rewrite <- Hh. rewrite reshape_tile. reflexivity.
Qed.

End WorthFacts.

(** ** The stateless scheme: edge cases and sizing *)

Section DiscreteActionsMore.
Local Open Scope Q_scope.
Import DiscreteActions.

(** The fraction in closed form, for every integer action code: the
    quotient truncates toward zero. *)
Lemma code_fraction_quot (n action : Z) :
  n <> 0%Z ->
  code_fraction n action == inject_Z (action ÷ 4 + 1) * (4 / inject_Z n).
Proof.
  intros Hn. unfold code_fraction. rewrite int_div_4, inject_Z_plus.
  apply inject_Z_nonzero in Hn.
  change (inject_Z 1) with 1. change (inject_Z 4) with 4. field. exact Hn.
Qed.

Lemma inject_Z_pos (n : Z) : (0 < n)%Z -> 0 < inject_Z n.
Proof. intros H. change 0 with (inject_Z 0). now rewrite <- Zlt_Qlt. Qed.

Lemma code_fraction_mono (n a b : Z) :
  (0 < n)%Z -> (a <= b)%Z -> code_fraction n a <= code_fraction n b.
Proof.
  intros Hn Hab. rewrite !code_fraction_quot by lia.
  assert (Hq : (a ÷ 4 + 1 <= b ÷ 4 + 1)%Z).
  { pose proof (Z.quot_le_mono a b 4). lia. }
  rewrite Zle_Qle in Hq. pose proof (inject_Z_pos n Hn) as Hp.
  apply Qmult_le_compat_r; [exact Hq |].
  apply Qle_shift_div_l; [exact Hp | lra].
Qed.

Lemma round_zero (p : Z) : Num.round 0 p == 0.
Proof.
  rewrite round_eq.
  rewrite (round_half_even_comp (0 * Num.pow10 p) (inject_Z 0)) by (simpl; ring).
  rewrite round_half_even_inject_Z.
  pose proof (pow10_pos p). simpl. field. lra.
Qed.

Lemma round_nonneg (x : Q) (p : Z) : 0 <= x -> 0 <= Num.round x p.
Proof. intros H. rewrite <- (round_zero p). now apply round_mono. Qed.

Lemma round_nonpos (x : Q) (p : Z) : x <= 0 -> Num.round x p <= 0.
Proof. intros H. rewrite <- (round_zero p). now apply round_mono. Qed.

(** X10: a scheme configured with no buckets at all fails on every action
    code with [ZeroDivisionError], and is left as it was. *)
Theorem get_trade_without_buckets (self : t) (action : Z) :
  n_actions self = 0%Z ->
  get_trade action self = (self, Raise ZeroDivisionError).
Proof.
  intros Hn. unfold get_trade.
  rewrite (bind_ok _ _ _ _ _ (get_trade_type_ok self action)).
  apply bind_raise. now apply get_trade_amount_zero_buckets.
Qed.

Lemma get_trade_without_buckets_witness :
  get_trade 0 (da 0 (exchange0 1000 ∅ 100))
  = (da 0 (exchange0 1000 ∅ 100), Raise ZeroDivisionError).
Proof.
  apply (get_trade_without_buckets (da 0 (exchange0 1000 ∅ 100)) 0). reflexivity.
Defined.

(** X11: at a current price of zero a buy fails with [ZeroDivisionError],
    the amount being converted at the price, while a sell returns its Trade
    as at any other price. *)
Theorem get_trade_at_zero_price (self : t) (action : Z) :
  n_actions self <> 0%Z ->
  current_price (_exchange self) (instrument_symbol self) == 0 ->
  (TradeTypes.is_buy (Spec.side action) = true ->
   get_trade action self = (self, Raise ZeroDivisionError))
  /\ (TradeTypes.is_buy (Spec.side action) = false ->
      get_trade action self
      = (self, Ok (mkTrade (instrument_symbol self) (Spec.side action)
                           (sell_amount self action)
                           (current_price (_exchange self) (instrument_symbol self))))).
Proof.
  intros Hn Hp. split; intros Hb.
  - unfold get_trade.
    rewrite (bind_ok _ _ _ _ _ (get_trade_type_ok self action)).
    rewrite (bind_ok _ _ _ _ _ (get_trade_amount_ok self action Hn)).
    unfold bind at 1 2 3 4 5, gets. cbv beta iota. rewrite Hb.
    unfold bind, lift, ret, gets. rewrite div_zero by exact Hp. reflexivity.
  - now apply get_trade_sell.
Qed.

Lemma get_trade_at_zero_price_witness :
  let self := da 20 (exchange0 1000 {[ BTC := 3 ]} 0) in
  get_trade 1 self = (self, Raise ZeroDivisionError)
  /\ exists tr, get_trade 2 self = (self, Ok tr).
Proof.
  intros self.
  destruct (get_trade_at_zero_price self 1) as [H1 _];
    [vm_compute; discriminate | reflexivity |].
  destruct (get_trade_at_zero_price self 2) as [_ H2];
    [vm_compute; discriminate | reflexivity |].
  split; [apply H1; reflexivity |].
  eexists. apply H2. reflexivity.
Defined.

(** X12: for any number of buckets other than zero the decoding repeats
    every four action codes: the codes [a] and [a + 4], [a] not negative,
    decode to the same side, and the fraction of [a + 4] is that of [a] plus
    [4 / n_actions]. *)
Theorem decoding_period_4 (self : t) (a : Z) :
  n_actions self <> 0%Z ->
  (0 <= a)%Z ->
  exists side f f',
    _get_trade_type a self = (self, Ok side)
    /\ _get_trade_type (a + 4) self = (self, Ok side)
    /\ _get_trade_amount a self = (self, Ok f)
    /\ _get_trade_amount (a + 4) self = (self, Ok f')
    /\ f' == f + 4 / inject_Z (n_actions self).
Proof.
  intros Hn Ha.
  exists (Spec.side a), (code_fraction (n_actions self) a),
    (code_fraction (n_actions self) (a + 4)).
  rewrite !get_trade_type_ok, !get_trade_amount_ok by exact Hn.
  repeat split.
  - unfold Spec.side. replace ((a + 4) mod 4)%Z with (a mod 4)%Z; [reflexivity |].
    rewrite <- (Z.mod_add a 1 4) by discriminate. reflexivity.
  - rewrite !code_fraction_quot by exact Hn.
    replace ((a + 4) ÷ 4)%Z with (a ÷ 4 + 1)%Z.
    + rewrite !inject_Z_plus. apply inject_Z_nonzero in Hn.
      change (inject_Z 1) with 1. field. exact Hn.
    + rewrite !Z.quot_div_nonneg by lia.
      replace (a + 4)%Z with (a + 1 * 4)%Z by lia.
      rewrite Z.div_add by discriminate. reflexivity.
Qed.

Lemma decoding_period_4_witness :
  let self := da 12 (exchange0 1000 ∅ 100) in
  exists side f f',
    _get_trade_type 3 self = (self, Ok side)
    /\ _get_trade_type (3 + 4) self = (self, Ok side)
    /\ _get_trade_amount 3 self = (self, Ok f)
    /\ _get_trade_amount (3 + 4) self = (self, Ok f')
    /\ f' == f + 4 / inject_Z (n_actions self).
Proof.
  intros self. apply (decoding_period_4 self 3); [vm_compute; discriminate | lia].
Defined.

(** X13: with a number of buckets that is a multiple of four, the fraction
    of an in-range action code is positive and at most one, and it is one
    exactly for the last four action codes. *)
Theorem fraction_of_in_range_action (self : t) (action : Z) :
  (n_actions self mod 4 = 0)%Z ->
  (0 <= action < n_actions self)%Z ->
  exists f, _get_trade_amount action self = (self, Ok f)
            /\ 0 < f <= 1
            /\ (f == 1 <-> (n_actions self - 4 <= action)%Z).
Proof.
  intros Hm Ha. assert (Hn : n_actions self <> 0%Z) by lia.
  rewrite (get_trade_amount_ok self action Hn). eexists. split; [reflexivity |].
  rewrite code_fraction_spec by lia.
  pose proof (fraction_at_most_one _ _ Hm Ha) as [_ F1].
  unfold Spec.fraction in *.
  set (n := n_actions self) in *.
  assert (En : (n = 4 * (n / 4))%Z) by (apply Z.div_exact; [discriminate | exact Hm]).
  assert (Hk : (0 <= action / 4)%Z) by (apply Z.div_pos; lia).
  assert (Hu : (action / 4 < n / 4)%Z) by (apply Z.div_lt_upper_bound; lia).
  pose proof (inject_Z_pos n ltac:(lia)) as Hp.
  assert (Hz : 0 < inject_Z (action / 4 + 1)) by (apply inject_Z_pos; lia).
  change (inject_Z 4) with 4 in *.
  assert (E : inject_Z (action / 4 + 1) * (4 / inject_Z n)
              == (4 * inject_Z (action / 4 + 1)) / inject_Z n) by (field; lra).
  split; [split; [| exact F1] |].
  - rewrite E. apply Qlt_shift_div_l; [exact Hp | lra].
  - rewrite E. split.
    + intros H1.
      assert (H2 : 4 * inject_Z (action / 4 + 1) == inject_Z n).
      { rewrite <- (Qmult_div_r (4 * inject_Z (action / 4 + 1)) (inject_Z n)) by lra.
        rewrite H1. ring. }
      change 4 with (inject_Z 4) in H2. rewrite <- inject_Z_mult in H2.
      apply (proj1 (inject_Z_injective _ _)) in H2.
      pose proof (Z.mul_div_le action 4 ltac:(lia)). lia.
    + intros H1.
      assert (H2 : (4 * (action / 4 + 1) = n)%Z).
      { assert (n / 4 - 1 <= action / 4)%Z; [| lia].
        apply Z.div_le_lower_bound; lia. }
      rewrite <- H2, inject_Z_mult. change (inject_Z 4) with 4. field.
      rewrite <- H2, inject_Z_mult in Hp. change (inject_Z 4) with 4 in Hp. lra.
Qed.

Lemma fraction_of_in_range_action_witness :
  let self := da 20 (exchange0 1000 ∅ 100) in
  exists f, _get_trade_amount 17 self = (self, Ok f)
            /\ 0 < f <= 1
            /\ (f == 1 <-> (n_actions self - 4 <= 17)%Z).
Proof.
  intros self. apply (fraction_of_in_range_action self 17).
  - reflexivity.
  - unfold self. simpl. lia.
Defined.

End DiscreteActionsMore.

Section DiscreteActionsSizing.
Local Open Scope Q_scope.
Import DiscreteActions.

(** X14: an action code at or above the number of buckets is not rejected.
    With a positive number of buckets that is a multiple of four and a price
    other than zero, [get_trade] returns a Trade for it, sized with a
    fraction above one. *)
Theorem action_above_range_not_rejected (self : t) (action : Z) :
  (0 < n_actions self)%Z ->
  (n_actions self mod 4 = 0)%Z ->
  (n_actions self <= action)%Z ->
  ~ current_price (_exchange self) (instrument_symbol self) == 0 ->
  exists tr f, get_trade action self = (self, Ok tr)
               /\ _get_trade_amount action self = (self, Ok f)
               /\ 1 < f.
Proof.
  intros Hn Hm Ha Hp. assert (Hn0 : n_actions self <> 0%Z) by lia.
  assert (Hf : 1 < code_fraction (n_actions self) action).
  { rewrite code_fraction_spec by lia. unfold Spec.fraction.
    set (n := n_actions self) in *.
    assert (En : (n = 4 * (n / 4))%Z) by (apply Z.div_exact; [discriminate | exact Hm]).
    assert (Hd : (n / 4 <= action / 4)%Z) by (apply Z.div_le_mono; lia).
    pose proof (inject_Z_pos n Hn) as Hpn.
    assert (Hq : inject_Z n < 4 * inject_Z (action / 4 + 1)).
    { change 4 with (inject_Z 4). rewrite <- inject_Z_mult, <- Zlt_Qlt. lia. }
    change (inject_Z 4) with 4.
    assert (E : inject_Z (action / 4 + 1) * (4 / inject_Z n)
                == (4 * inject_Z (action / 4 + 1)) / inject_Z n) by (field; lra).
    rewrite E. apply Qlt_shift_div_l; [exact Hpn | lra]. }
  rewrite (get_trade_amount_ok self action Hn0).
  destruct (TradeTypes.is_buy (Spec.side action)) eqn:B.
  - rewrite (get_trade_buy self action Hn0 B Hp). eauto.
  - rewrite (get_trade_sell self action Hn0 B). eauto.
Qed.

Lemma action_above_range_not_rejected_witness :
  let self := da 20 (exchange0 1000 {[ BTC := 3 ]} 100) in
  exists tr f, get_trade 25 self = (self, Ok tr)
               /\ _get_trade_amount 25 self = (self, Ok f)
               /\ 1 < f.
Proof.
  intros self. apply (action_above_range_not_rejected self 25).
  - reflexivity.
  - reflexivity.
  - unfold self. simpl. lia.
  - vm_compute. discriminate.
Defined.

(** X15: with a number of buckets that is a multiple of four and a holding
    that is not negative, a sell for an in-range action code never asks for
    more than the instrument balance held, up to the rounding of the amount,
    and never for a negative amount. *)
Theorem sell_amount_within_holding (self : t) (action : Z) :
  (n_actions self mod 4 = 0)%Z ->
  (0 <= action < n_actions self)%Z ->
  0 <= Exchanges.instrument_balance (_exchange self) (instrument_symbol self) ->
  TradeTypes.is_sell (Spec.side action) = true ->
  exists tr, get_trade action self = (self, Ok tr)
             /\ 0 <= amount tr
                <= Exchanges.instrument_balance (_exchange self) (instrument_symbol self)
                   + tolerance (_instrument_precision (_exchange self)).
Proof.
  intros Hm Ha Hh Hs. assert (Hn : n_actions self <> 0%Z) by lia.
  assert (Hb : TradeTypes.is_buy (Spec.side action) = false)
    by (destruct (Spec.side action); simpl in *; congruence).
  rewrite (get_trade_sell self action Hn Hb). eexists. split; [reflexivity |].
  simpl. unfold sell_amount.
  pose proof (fraction_at_most_one _ _ Hm Ha) as [F0 F1].
  rewrite <- code_fraction_spec in F0, F1 by lia.
  set (f := code_fraction (n_actions self) action) in *.
  set (h := Exchanges.instrument_balance (_exchange self) (instrument_symbol self)) in *.
  pose proof (round_error (h * f) (_instrument_precision (_exchange self))) as [_ U].
  assert (H0 : 0 <= h * f) by (apply Qmult_le_0_compat; lra).
  assert (H1 : 0 <= h * (1 - f)) by (apply Qmult_le_0_compat; lra).
  split; [now apply round_nonneg |].
  assert (H2 : h * f == h - h * (1 - f)) by ring.
  lra.
Qed.

Lemma sell_amount_within_holding_witness :
  let self := da 20 (exchange0 1000 {[ BTC := 3 ]} 100) in
  exists tr, get_trade 14 self = (self, Ok tr)
             /\ 0 <= amount tr
                <= Exchanges.instrument_balance (_exchange self) (instrument_symbol self)
                   + tolerance (_instrument_precision (_exchange self)).
Proof.
  intros self. apply (sell_amount_within_holding self 14).
  - reflexivity.
  - unfold self. simpl. lia.
  - vm_compute. discriminate.
  - reflexivity.
Defined.

(** X16: with a positive number of buckets, a balance that is not negative
    and a positive price, a larger action code never buys less: for two buys
    with action codes [a <= b] the amount for [a] is at most that for [b]. *)
Theorem buy_amount_monotone (self : t) (a b : Z) :
  (0 < n_actions self)%Z ->
  0 <= balance (_exchange self) ->
  0 < current_price (_exchange self) (instrument_symbol self) ->
  (a <= b)%Z ->
  TradeTypes.is_buy (Spec.side a) = true ->
  TradeTypes.is_buy (Spec.side b) = true ->
  exists ta tb, get_trade a self = (self, Ok ta)
                /\ get_trade b self = (self, Ok tb)
                /\ amount ta <= amount tb.
Proof.
  intros Hn Hb Hp Hab Ba Bb. assert (Hn0 : n_actions self <> 0%Z) by lia.
  rewrite (get_trade_buy self a Hn0 Ba), (get_trade_buy self b Hn0 Bb) by lra.
  do 2 eexists. split; [reflexivity |]. split; [reflexivity |]. simpl.
  unfold buy_amount. apply round_mono.
  pose proof (code_fraction_mono (n_actions self) a b Hn Hab) as Hf.
  set (fa := code_fraction (n_actions self) a) in *.
  set (fb := code_fraction (n_actions self) b) in *.
  set (c := current_price (_exchange self) (instrument_symbol self)) in *.
  unfold Qdiv. apply Qmult_le_compat_r.
  - assert (H : 0 <= balance (_exchange self) * (98 # 100) * (fb - fa))
      by (apply Qmult_le_0_compat; lra).
    lra.
  - apply Qlt_le_weak, Qinv_lt_0_compat, Hp.
Qed.

Lemma buy_amount_monotone_witness :
  let self := da 20 (exchange0 1000 ∅ 100) in
  exists ta tb, get_trade 1 self = (self, Ok ta)
                /\ get_trade 12 self = (self, Ok tb)
                /\ amount ta <= amount tb.
Proof.
  intros self. apply (buy_amount_monotone self 1 12).
  - reflexivity.
  - vm_compute. discriminate.
  - reflexivity.
  - lia.
  - reflexivity.
  - reflexivity.
Defined.

(** X17: a negative action code is not rejected either.  With a positive
    number of buckets, a balance that is not negative and a positive price, a
    buy for an action code of -4 or below is sized with a fraction that is
    zero or negative, so the amount returned is not positive. *)
Theorem negative_action_buys_nothing (self : t) (action : Z) :
  (0 < n_actions self)%Z ->
  0 <= balance (_exchange self) ->
  0 < current_price (_exchange self) (instrument_symbol self) ->
  (action <= -4)%Z ->
  TradeTypes.is_buy (Spec.side action) = true ->
  exists tr, get_trade action self = (self, Ok tr) /\ amount tr <= 0.
Proof.
  intros Hn Hb Hp Ha B. assert (Hn0 : n_actions self <> 0%Z) by lia.
  rewrite (get_trade_buy self action Hn0 B) by lra.
  eexists. split; [reflexivity |]. simpl. unfold buy_amount.
  apply round_nonpos.
  assert (Hf : code_fraction (n_actions self) action <= 0).
  { rewrite code_fraction_quot by exact Hn0.
    assert (Hq : (action ÷ 4 + 1 <= 0)%Z).
    { pose proof (Z.quot_le_mono action (-4) 4 ltac:(lia) Ha) as H.
      change (-4 ÷ 4)%Z with (-1)%Z in H. lia. }
    rewrite Zle_Qle in Hq. pose proof (inject_Z_pos _ Hn) as Hpn.
    assert (H4 : 0 <= 4 / inject_Z (n_actions self))
      by (apply Qle_shift_div_l; [exact Hpn | lra]).
    change (inject_Z 0) with 0 in Hq.
    assert (H : 0 <= (- inject_Z (action ÷ 4 + 1)) * (4 / inject_Z (n_actions self)))
      by (apply Qmult_le_0_compat; lra).
    lra. }
  set (f := code_fraction (n_actions self) action) in *.
  set (c := current_price (_exchange self) (instrument_symbol self)) in *.
  assert (Hi : 0 < / c) by now apply Qinv_lt_0_compat.
  assert (H1 : 0 <= balance (_exchange self) * (98 # 100) * (- f))
    by (apply Qmult_le_0_compat; lra).
  assert (H2 : 0 <= (balance (_exchange self) * (98 # 100) * (- f)) * / c)
    by (apply Qmult_le_0_compat; lra).
  unfold Qdiv. lra.
Qed.

Lemma negative_action_buys_nothing_witness :
  let self := da 20 (exchange0 1000 ∅ 100) in
  exists tr, get_trade (-7) self = (self, Ok tr) /\ amount tr <= 0.
Proof.
  intros self. apply (negative_action_buys_nothing self (-7)).
  - reflexivity.
  - vm_compute. discriminate.
  - reflexivity.
  - lia.
  - reflexivity.
Defined.

End DiscreteActionsSizing.

(** ** The position-tracking scheme: edge cases, frame and successive calls *)

Section TargetStopMore.
Local Open Scope Q_scope.
Import TargetStopActionStrategy.

Lemma get_trade_no_profit_targets (self : t) (action : Z) :
  range_len (profit_target_range self) = 0%Z ->
  get_trade action self = (self, Raise ZeroDivisionError).
Proof.
  intros H. unfold get_trade, bind, gets, lift. rewrite H.
  rewrite div_zero by reflexivity. reflexivity.
Qed.

Lemma get_trade_no_stop_losses (self : t) (action : Z) :
  range_len (profit_target_range self) <> 0%Z ->
  range_len (stop_loss_range self) = 0%Z ->
  get_trade action self = (self, Raise ZeroDivisionError).
Proof.
  intros Hp H. unfold get_trade, bind, gets, lift. rewrite H.
  rewrite !(div_ok _ (inject_Z (range_len (profit_target_range self))))
    by now apply inject_Z_nonzero.
  rewrite div_zero by reflexivity. reflexivity.
Qed.

Lemma get_trade_no_positions (self : t) (action : Z) :
  range_len (profit_target_range self) <> 0%Z ->
  range_len (stop_loss_range self) <> 0%Z ->
  position_size self = 0%Z ->
  get_trade action self = (self, Raise ZeroDivisionError).
Proof.
  intros Hp Hs H. unfold get_trade, bind, gets, lift. rewrite H.
  change TradeTypes.len with 4%Z.
  rewrite !(div_ok _ (inject_Z (range_len (profit_target_range self))))
    by now apply inject_Z_nonzero.
  rewrite !(div_ok _ (inject_Z (range_len (stop_loss_range self))))
    by now apply inject_Z_nonzero.
  rewrite !(div_ok _ (inject_Z 4)) by discriminate.
  rewrite call_mod_len.
  rewrite (div_zero 1 (inject_Z 0 / inject_Z 4)) by reflexivity. reflexivity.
Qed.

(** X18: with an empty profit-target range, an empty stop-loss range or a
    position size of zero, [get_trade] fails with [ZeroDivisionError] while
    it decodes the action, before it touches the scheme: the step counter is
    not incremented. *)
Theorem get_trade_degenerate_configuration (self : t) (action : Z) :
  range_len (profit_target_range self) = 0%Z
  \/ range_len (stop_loss_range self) = 0%Z
  \/ position_size self = 0%Z ->
  get_trade action self = (self, Raise ZeroDivisionError).
Proof.
  intros H.
  destruct (Z.eq_dec (range_len (profit_target_range self)) 0%Z) as [Ep | Np];
    [now apply get_trade_no_profit_targets |].
  destruct (Z.eq_dec (range_len (stop_loss_range self)) 0%Z) as [Es | Ns];
    [now apply get_trade_no_stop_losses |].
  destruct H as [H | [H | H]]; [contradiction | contradiction |].
  now apply get_trade_no_positions.
Qed.

Lemma get_trade_degenerate_configuration_witness :
  let self := mk 20 BTC (mkRange 0 0 5) r20 1000 7 [] (exchange0 1000 ∅ 100) in
  get_trade 1 self = (self, Raise ZeroDivisionError).
Proof.
  intros self. apply (get_trade_degenerate_configuration self 1).
  left. reflexivity.
Defined.

(** X19: whatever it returns or raises, [get_trade] changes nothing of the
    scheme but the step counter: the ledger, the exchange, the symbol and
    the configuration after the call are those before it. *)
Theorem get_trade_changes_only_the_step (self : t) (action : Z) :
  let self' := fst (get_trade action self) in
  trading_history self' = trading_history self
  /\ _exchange self' = _exchange self
  /\ instrument_symbol self' = instrument_symbol self
  /\ position_size self' = position_size self
  /\ profit_target_range self' = profit_target_range self
  /\ stop_loss_range self' = stop_loss_range self
  /\ timeout_steps self' = timeout_steps self.
Proof.
  destruct (Z.eq_dec (range_len (profit_target_range self)) 0%Z) as [Ep | Np];
    [rewrite get_trade_no_profit_targets by exact Ep; simpl; tauto |].
  destruct (Z.eq_dec (range_len (stop_loss_range self)) 0%Z) as [Es | Ns];
    [rewrite get_trade_no_stop_losses by assumption; simpl; tauto |].
  destruct (Z.eq_dec (position_size self) 0%Z) as [Ez | Nz];
    [rewrite get_trade_no_positions by assumption; simpl; tauto |].
  assert (Hc : nondegenerate self) by (repeat split; assumption).
  destruct (trading_history self) as [| e l] eqn:L.
  - rewrite (get_trade_on_empty_ledger self action Hc L). simpl. rewrite L. tauto.
  - rewrite (get_trade_on_nonempty_ledger self action e l Hc L). simpl. rewrite L. tauto.
Qed.

Lemma get_trade_outcome (self : t) (action : Z) :
  nondegenerate self ->
  get_trade action self
  = (set_current_step (current_step self + 1) self, outcome_on self action).
Proof.
  intros Hc. unfold outcome_on. destruct (trading_history self) as [| e l] eqn:L.
  - now apply get_trade_on_empty_ledger.
  - now apply (get_trade_on_nonempty_ledger self action e l).
Qed.

Lemma successive_calls_outcomes (actions : list Z) (self : t) :
  nondegenerate self ->
  trading_history (fst (successive_calls actions self)) = trading_history self
  /\ current_step (fst (successive_calls actions self))
     = (current_step self + Z.of_nat (length actions))%Z
  /\ snd (successive_calls actions self) = map (outcome_on self) actions.
Proof.
  revert self. induction actions as [| a rest IH]; intros self Hc.
  - simpl. repeat split. lia.
  - simpl successive_calls. rewrite (get_trade_outcome self a Hc).
    specialize (IH (set_current_step (current_step self + 1) self) Hc).
    destruct (successive_calls rest (set_current_step (current_step self + 1) self))
      as [self'' outcomes].
    simpl in *. destruct IH as (H1 & H2 & H3). repeat split.
    + exact H1.
    + rewrite H2. lia.
    + rewrite H3. reflexivity.
Qed.

End TargetStopMore.

Section TargetStopCalls.
Local Open Scope Q_scope.
Import TargetStopActionStrategy.

Lemma reset_nondegenerate (self : t) :
  nondegenerate self -> nondegenerate (fst (reset self)).
Proof. intros H. exact H. Qed.

(** X20: after [reset], whatever the scheme held before, successive calls of
    [get_trade] never fail and never open a position: each returns a Trade
    for the side its action code decodes to, with the instrument balance held
    as amount, the ledger stays empty, and the step counter is the number of
    calls made. *)
Theorem calls_after_reset (self : t) (actions : list Z) :
  nondegenerate self ->
  let final := fst (successive_calls actions (fst (reset self))) in
  trading_history final = []
  /\ current_step final = Z.of_nat (length actions)
  /\ snd (successive_calls actions (fst (reset self)))
     = map (fun action =>
              Ok (mkTrade (instrument_symbol self) (Spec.side action)
                          (Exchanges.instrument_balance (_exchange self)
                                                        (instrument_symbol self))
                          (rounded_price self)))
           actions.
Proof.
  intros Hc final.
  destruct (successive_calls_outcomes actions (fst (reset self)) (reset_nondegenerate self Hc))
    as (H1 & H2 & H3).
  repeat split.
  - exact H1.
  - unfold final. rewrite H2. simpl. lia.
  - rewrite H3. reflexivity.
Qed.

Lemma calls_after_reset_witness :
  let self := ts [position0] 9 (exchange0 1000 {[ BTC := 3 ]} 100) in
  let final := fst (successive_calls [1; 2; 7]%Z (fst (reset self))) in
  trading_history final = []
  /\ current_step final = 3%Z
  /\ snd (successive_calls [1; 2; 7]%Z (fst (reset self)))
     = [Ok (mkTrade BTC MARKET_BUY 3 100); Ok (mkTrade BTC LIMIT_SELL 3 100);
        Ok (mkTrade BTC MARKET_SELL 3 100)].
Proof.
  intros self.
  apply (calls_after_reset self [1; 2; 7]%Z). apply ts_nondegenerate.
Defined.

(** X21: a scheme whose ledger is not empty is stuck: every one of any
    number of successive calls raises [TypeError], the ledger is left as it
    is, and the step counter still advances by one per call. *)
Theorem calls_with_open_position (self : t) (actions : list Z)
        (e : list Q) (l : list (list Q)) :
  nondegenerate self ->
  trading_history self = e :: l ->
  let final := fst (successive_calls actions self) in
  trading_history final = e :: l
  /\ current_step final = (current_step self + Z.of_nat (length actions))%Z
  /\ snd (successive_calls actions self) = map (fun _ => Raise TypeError) actions.
Proof.
  intros Hc Hl final.
  destruct (successive_calls_outcomes actions self Hc) as (H1 & H2 & H3).
  repeat split.
  - unfold final. now rewrite H1.
  - exact H2.
  - rewrite H3. apply map_ext. intros a. unfold outcome_on. now rewrite Hl.
Qed.

Lemma calls_with_open_position_witness :
  let self := ts [position0] 9 (exchange0 1000 {[ BTC := 3 ]} 100) in
  let final := fst (successive_calls [1; 2; 7]%Z self) in
  trading_history final = [position0]
  /\ current_step final = 12%Z
  /\ snd (successive_calls [1; 2; 7]%Z self)
     = [Raise TypeError; Raise TypeError; Raise TypeError].
Proof.
  intros self.
  apply (calls_with_open_position self [1; 2; 7]%Z position0 []);
    [apply ts_nondegenerate | reflexivity].
Defined.

End TargetStopCalls.
